(** * E-commerce product video generator: prompt templating, form
    collector and the submit / poll / fetch pipeline.

  Shallow embedding of the service module (functions [constructPrompt]
  and [generateVideo]), of [types.ts] and of the state logic of
  [components/PromptForm.tsx].

  JavaScript strings are sequences of UTF-16 code units; they are
  modelled as lists of code units so that [trim], [split] and [join]
  behave as the ECMAScript built-ins do on every input. *)

From Stdlib Require Import List NArith Bool Arith Lia String Ascii.
From Stdlib Require Import Numbers.DecimalString Morphisms Setoid.
From Stdlib Require Numbers.DecimalN Numbers.DecimalFacts.
From ITree Require Import ITree ITreeFacts Events.State Events.StateFacts Props.Leaf.
Import ListNotations.

Set Implicit Arguments.
Local Open Scope list_scope.

(* ===================================================================== *)
(** ** JavaScript strings *)
(* ===================================================================== *)

Module JS.

(** One UTF-16 code unit. *)
Definition code_unit := N.

Definition jsstring := list code_unit.

(** A source-code literal (all literals of the program are ASCII). *)
Definition lit (s : string) : jsstring :=
  List.map N_of_ascii (list_ascii_of_string s).

(** The escape [\n] of a JavaScript literal. *)
Definition LF : code_unit := 10%N.
Definition nl : jsstring := [LF].

(** Truthiness of a string: [if (s)] holds unless [s] is empty. *)
Definition truthy (s : jsstring) : bool :=
  match s with
  | [] => false
  | _ :: _ => true
  end.

(** ECMAScript WhiteSpace and LineTerminator code points, the ones
    [String.prototype.trim] strips. *)
Definition isWhiteSpace (c : code_unit) : bool :=
  ((c =? 0x09) || (c =? 0x0A) || (c =? 0x0B) || (c =? 0x0C) || (c =? 0x0D)
   || (c =? 0x20) || (c =? 0xA0) || (c =? 0x1680)
   || ((0x2000 <=? c) && (c <=? 0x200A))
   || (c =? 0x2028) || (c =? 0x2029) || (c =? 0x202F) || (c =? 0x205F)
   || (c =? 0x3000) || (c =? 0xFEFF))%N.

Fixpoint trimStart (s : jsstring) : jsstring :=
  match s with
  | [] => []
  | c :: rest => if isWhiteSpace c then trimStart rest else s
  end.

Definition trimEnd (s : jsstring) : jsstring :=
  rev (trimStart (rev s)).

(** [s.trim()] *)
Definition trim (s : jsstring) : jsstring := trimEnd (trimStart s).

(** [s.split(sep)] for a separator of one code unit.  The result is
    never empty: the empty string splits into one empty piece. *)
Fixpoint split (sep : code_unit) (s : jsstring) : list jsstring :=
  match s with
  | [] => [[]]
  | c :: rest =>
      if (c =? sep)%N then [] :: split sep rest
      else match split sep rest with
           | [] => [[c]]
           | piece :: pieces => (c :: piece) :: pieces
           end
  end.

(** [pieces.join(sep)] *)
Fixpoint join (sep : jsstring) (pieces : list jsstring) : jsstring :=
  match pieces with
  | [] => []
  | [piece] => piece
  | piece :: more => piece ++ sep ++ join sep more
  end.

(** [s.toLowerCase()] on the Basic Latin letters.  The program applies
    it to the values of the [VideoStyle] enum only, which are ASCII. *)
Definition lowerUnit (c : code_unit) : code_unit :=
  if ((0x41 <=? c) && (c <=? 0x5A))%N then (c + 0x20)%N else c.

Definition toLowerCase (s : jsstring) : jsstring := List.map lowerUnit s.

(** [s.startsWith(p)] and [s.includes(p)] *)
Fixpoint startsWith (p s : jsstring) : bool :=
  match p, s with
  | [], _ => true
  | _ :: _, [] => false
  | a :: p', b :: s' => (a =? b)%N && startsWith p' s'
  end.

Fixpoint includes (p s : jsstring) : bool :=
  startsWith p s ||
  match s with
  | [] => false
  | _ :: s' => includes p s'
  end.

(** A number interpolated in a template literal (non-negative
    integers only: decimal digits without sign or padding). *)
Definition ofNumber (n : N) : jsstring :=
  lit (NilZero.string_of_uint (N.to_uint n)).


(** [array.filter((x, i) => f(x, i))]: the callback sees the index. *)
Fixpoint filterFrom {A : Type} (f : A -> nat -> bool) (i : nat) (l : list A)
  : list A :=
  match l with
  | [] => []
  | x :: rest =>
      if f x i then x :: filterFrom f (S i) rest else filterFrom f (S i) rest
  end.

Definition Array_filter {A : Type} (f : A -> nat -> bool) (l : list A) : list A :=
  filterFrom f 0 l.

(** [new Error(message)] *)
Record Error := mkError { message : jsstring }.

End JS.

Import JS.

(* ===================================================================== *)
(** ** The types of the video SDK the program reads and builds *)
(* ===================================================================== *)

Module GenAI.

(** The service's video descriptor. *)
Record Video := mkVideo {
  uri : option jsstring;
  videoBytes : option jsstring;
  mimeType : option jsstring
}.

Record GeneratedVideo := mkGeneratedVideo {
  video : option Video
}.

Record GenerateVideosResponse := mkResponse {
  generatedVideos : option (list GeneratedVideo)
}.

(** The operation handle: every field is optional in the SDK. *)
Record GenerateVideosOperation := mkOperation {
  name : option jsstring;
  done : option bool;
  response : option GenerateVideosResponse
}.

Record Image := mkImage {
  imageBytes : jsstring;
  image_mimeType : jsstring
}.

Inductive VideoGenerationReferenceType := ASSET | STYLE.

Record VideoGenerationReferenceImage := mkReference {
  image : Image;
  referenceType : VideoGenerationReferenceType
}.

End GenAI.

(* ===================================================================== *)
(** ** types.ts *)
(* ===================================================================== *)

Module Types.

Inductive VeoModel := VEO_FAST | VEO.

Inductive AspectRatio := LANDSCAPE | PORTRAIT.

Inductive Resolution := P720 | P1080.

Inductive VideoStyle := MODERN | MINIMALIST | ENERGETIC | INFORMATIONAL.

(** The string value of each member of the string enum. *)
Definition VideoStyle_value (s : VideoStyle) : jsstring :=
  match s with
  | MODERN => lit "Sleek & Modern"
  | MINIMALIST => lit "Minimalist"
  | ENERGETIC => lit "Energetic & Fast-Paced"
  | INFORMATIONAL => lit "Informational"
  end.

(** The part of a browser [File] the program reads. *)
Record File := mkFile {
  file_name : jsstring;
  file_type : jsstring
}.

Record ImageFile := mkImageFile {
  file : File;
  base64 : jsstring
}.

Record GenerateVideoParams := mkParams {
  productName : jsstring;
  keyFeatures : jsstring;
  targetAudience : jsstring;
  videoStyle : VideoStyle;
  productImages : list ImageFile;
  model : VeoModel;
  aspectRatio : AspectRatio;
  resolution : Resolution;
  (* deprecated optional fields *)
  prompt : option jsstring;
  mode : option jsstring;
  inputVideoObject : option (option GenAI.Video)
}.

End Types.

Import Types.

(* ===================================================================== *)
(** ** constructPrompt *)
(* ===================================================================== *)

Module Prompt.

Definition opening (params : GenerateVideoParams) : jsstring :=
  lit "Create a " ++ toLowerCase (VideoStyle_value (videoStyle params))
    ++ lit ", 15-second e-commerce product video for the '"
    ++ productName params ++ lit "'." ++ nl ++ nl.

Definition audienceSentence (audience : jsstring) : jsstring :=
  lit "The video should be dynamic and engaging, targeting "
    ++ audience ++ lit "." ++ nl ++ nl.

Definition featuresLeadIn : jsstring :=
  lit "Showcase the following key features:".

(** [keyFeatures.split('\n').map(l => l.trim()).filter(l => l).join('\n')] *)
Definition featureLines (features : jsstring) : jsstring :=
  join nl (List.filter truthy (List.map trim (split LF features))).

Definition featuresBlock (features : jsstring) : jsstring :=
  featuresLeadIn ++ nl ++ featureLines features ++ nl ++ nl.

Definition closingQuality : jsstring :=
  lit "Use smooth transitions, clean graphics, and upbeat, modern background music. The video should feel professional and high-quality."
    ++ nl ++ nl.

Definition closingImages : jsstring :=
  lit "Use the provided images as strong visual references for the product's appearance and functionality.".

(** The function as written: a local [prompt] extended four times. *)
Definition constructPrompt (params : GenerateVideoParams) : jsstring :=
  let prompt := opening params in
  let prompt :=
    if truthy (targetAudience params)
    then prompt ++ audienceSentence (targetAudience params)
    else prompt in
  let prompt :=
    if truthy (keyFeatures params)
    then prompt ++ featuresBlock (keyFeatures params)
    else prompt in
  let prompt := prompt ++ closingQuality in
  let prompt := prompt ++ closingImages in
  prompt.

End Prompt.

Import Prompt.

(* ===================================================================== *)
(** ** components/PromptForm.tsx: the state of the form *)
(* ===================================================================== *)

Module Collector.

(** The [useState] cells of [PromptForm]. *)
Record FormState := mkForm {
  productName : jsstring;
  keyFeatures : jsstring;
  targetAudience : jsstring;
  videoStyle : VideoStyle;
  productImages : list ImageFile;
  model : VeoModel;
  aspectRatio : AspectRatio;
  resolution : Resolution;
  isSettingsOpen : bool
}.

(** The initial values of the cells: [initialValues?.field ?? default]. *)
Definition initialState (initialValues : option GenerateVideoParams) : FormState :=
  match initialValues with
  | Some v =>
      mkForm (Types.productName v) (Types.keyFeatures v) (Types.targetAudience v)
             (Types.videoStyle v) (Types.productImages v) (Types.model v)
             (Types.aspectRatio v) (Types.resolution v) false
  | None => mkForm [] [] [] MODERN [] VEO LANDSCAPE P720 false
  end.

(** The [useEffect] on [initialValues]: a non-null value re-seeds the
    eight fields. *)
Definition reseed (initialValues : option GenerateVideoParams) (st : FormState)
  : FormState :=
  match initialValues with
  | Some v =>
      mkForm (Types.productName v) (Types.keyFeatures v) (Types.targetAudience v)
             (Types.videoStyle v) (Types.productImages v) (Types.model v)
             (Types.aspectRatio v) (Types.resolution v) (isSettingsOpen st)
  | None => st
  end.

(** [handleSubmit]: the request handed to [onGenerate]. *)
Definition handleSubmit (st : FormState) : GenerateVideoParams :=
  mkParams (productName st) (keyFeatures st) (targetAudience st) (videoStyle st)
           (productImages st) (model st) (aspectRatio st) (resolution st)
           None None None.

(** [!productName.trim() || productImages.length === 0] *)
Definition isSubmitDisabled (st : FormState) : bool :=
  negb (truthy (trim (productName st)))
  || (List.length (productImages st) =? 0).

Definition tooltipBoth : jsstring :=
  lit "Please enter a product name and upload at least one image.".

Definition tooltipName : jsstring := lit "Please enter a product name.".

Definition tooltipImages : jsstring :=
  lit "Please upload at least one product image.".

Definition tooltipText (st : FormState) : jsstring :=
  let tooltipText := [] in
  if isSubmitDisabled st then
    if negb (truthy (trim (productName st)))
       && (List.length (productImages st) =? 0)
    then tooltipBoth
    else if negb (truthy (trim (productName st)))
    then tooltipName
    else tooltipImages
  else tooltipText.

(** The state updaters of the image list. *)
Definition removeAt (index : nat) (imgs : list ImageFile) : list ImageFile :=
  Array_filter (fun _ i => negb (i =? index)) imgs.

Definition append (img : ImageFile) (imgs : list ImageFile) : list ImageFile :=
  imgs ++ [img].

Definition setProductImages (f : list ImageFile -> list ImageFile) (st : FormState)
  : FormState :=
  mkForm (productName st) (keyFeatures st) (targetAudience st) (videoStyle st)
         (f (productImages st)) (model st) (aspectRatio st) (resolution st)
         (isSettingsOpen st).

(** What the render offers: the "Add Image" tile exists while
    [productImages.length < 6], a remove button exists for each index of
    the list. *)
Definition addImageRendered (st : FormState) : bool :=
  List.length (productImages st) <? 6.

Definition removeRendered (index : nat) (st : FormState) : bool :=
  index <? List.length (productImages st).

(** The user actions of the form and the change of its props. *)
Inductive Action :=
| ChangeProductName (value : jsstring)
| ChangeKeyFeatures (value : jsstring)
| ChangeTargetAudience (value : jsstring)
| ChangeVideoStyle (value : VideoStyle)
| SelectImage (img : ImageFile)
| RemoveImage (index : nat)
| ToggleSettings
| ChangeModel (value : VeoModel)
| ChangeAspectRatio (value : AspectRatio)
| ChangeResolution (value : Resolution)
| InitialValuesChanged (initialValues : option GenerateVideoParams).

(** One action on the rendered form in a session where nothing
    overlaps an upload; [None] when the control the action needs is not
    rendered in this state.  [SelectImage] is a whole upload: the file is
    chosen on the "Add Image" tile, read, and appended before anything
    else happens, so that the test of the tile is also a test at the time
    of the append.  The program itself tests only when it renders the
    tile; uploads whose reads are still pending when something else
    happens are the subject of [Upload.react] below.  The three settings
    are offered whether or not the settings panel is open. *)
Definition step (st : FormState) (a : Action) : option FormState :=
  match a with
  | ChangeProductName v =>
      Some (mkForm v (keyFeatures st) (targetAudience st) (videoStyle st)
                   (productImages st) (model st) (aspectRatio st)
                   (resolution st) (isSettingsOpen st))
  | ChangeKeyFeatures v =>
      Some (mkForm (productName st) v (targetAudience st) (videoStyle st)
                   (productImages st) (model st) (aspectRatio st)
                   (resolution st) (isSettingsOpen st))
  | ChangeTargetAudience v =>
      Some (mkForm (productName st) (keyFeatures st) v (videoStyle st)
                   (productImages st) (model st) (aspectRatio st)
                   (resolution st) (isSettingsOpen st))
  | ChangeVideoStyle v =>
      Some (mkForm (productName st) (keyFeatures st) (targetAudience st) v
                   (productImages st) (model st) (aspectRatio st)
                   (resolution st) (isSettingsOpen st))
  | SelectImage img =>
      if addImageRendered st then Some (setProductImages (append img) st)
      else None
  | RemoveImage index =>
      if removeRendered index st then Some (setProductImages (removeAt index) st)
      else None
  | ToggleSettings =>
      Some (mkForm (productName st) (keyFeatures st) (targetAudience st)
                   (videoStyle st) (productImages st) (model st)
                   (aspectRatio st) (resolution st) (negb (isSettingsOpen st)))
  | ChangeModel v =>
      Some (mkForm (productName st) (keyFeatures st) (targetAudience st)
                   (videoStyle st) (productImages st) v (aspectRatio st)
                   (resolution st) (isSettingsOpen st))
  | ChangeAspectRatio v =>
      Some (mkForm (productName st) (keyFeatures st) (targetAudience st)
                   (videoStyle st) (productImages st) (model st) v
                   (resolution st) (isSettingsOpen st))
  | ChangeResolution v =>
      Some (mkForm (productName st) (keyFeatures st) (targetAudience st)
                   (videoStyle st) (productImages st) (model st)
                   (aspectRatio st) v (isSettingsOpen st))
  | InitialValuesChanged iv => Some (reseed iv st)
  end.

(** A session: actions applied in turn, stopping at the first one that
    the render does not offer. *)
Fixpoint run (st : FormState) (actions : list Action) : option FormState :=
  match actions with
  | [] => Some st
  | a :: rest =>
      match step st a with
      | Some st' => run st' rest
      | None => None
      end
  end.

(** The data-model bound on a request that seeds the form: at most six
    reference images. *)
Definition seedOk (initialValues : option GenerateVideoParams) : Prop :=
  match initialValues with
  | Some v => List.length (Types.productImages v) <= 6
  | None => True
  end.

Definition actionOk (a : Action) : Prop :=
  match a with
  | InitialValuesChanged iv => seedOk iv
  | _ => True
  end.

End Collector.

(* ===================================================================== *)
(** ** generateVideo: the submit / poll / fetch pipeline *)
(* ===================================================================== *)

Module Pipeline.

Import GenAI.

(** The argument of [ai.models.generateVideos]. *)
Record GenerateVideosConfig := mkConfig {
  numberOfVideos : N;
  config_resolution : Resolution;
  config_aspectRatio : AspectRatio;
  referenceImages : list VideoGenerationReferenceImage
}.

Record GenerateVideosParameters := mkPayload {
  payload_model : VeoModel;
  payload_prompt : jsstring;
  config : GenerateVideosConfig
}.

(** What the program reads of a [fetch] response, and a downloaded body. *)
Record FetchResponse := mkFetchResponse {
  ok : bool;
  status : N;
  statusText : jsstring
}.

Record Blob := mkBlob { blob_bytes : list N }.

(** The value [generateVideo] resolves to. *)
Record VideoResult := mkResult {
  objectUrl : jsstring;
  blob : Blob;
  result_uri : jsstring;
  result_video : Video
}.

(** The diagnostic messages, with the values printed after them. *)
Inductive LogEntry :=
| LogStarting (params : GenerateVideoParams)
| LogPrompt (finalPrompt : jsstring)
| LogAddingImage (fileName : jsstring)
| LogSubmitting (payload : GenerateVideosParameters)
| LogStarted (operation : GenerateVideosOperation)
| LogGenerating
| LogFetching (url : jsstring)
| LogOperationFailed (operation : GenerateVideosOperation).

(** The calls the function makes to its environment.  A call that is
    awaited answers with the value it resolves to or the error it
    rejects with. *)
Variant pipelineE : Type -> Type :=
| ConsoleLog (entry : LogEntry) : pipelineE unit
| ConsoleError (entry : LogEntry) : pipelineE unit
| GenerateVideos (payload : GenerateVideosParameters)
    : pipelineE (Error + GenerateVideosOperation)
| SetTimeout (ms : N) : pipelineE unit
| GetVideosOperation (operation : GenerateVideosOperation)
    : pipelineE (Error + GenerateVideosOperation)
| Fetch (url : jsstring) : pipelineE (Error + FetchResponse)
| ResBlob (res : FetchResponse) : pipelineE (Error + Blob)
| CreateObjectURL (b : Blob) : pipelineE jsstring.

(** An asynchronous computation that resolves to [R] or rejects. *)
Definition Promise (R : Type) : Type := itree pipelineE (Error + R).

Definition resolve {R : Type} (r : R) : Promise R := Ret (inr r).

Definition throw {R : Type} (msg : jsstring) : Promise R :=
  Ret (inl (mkError msg)).

(** [const x = await call; rest]: a rejection leaves the function. *)
Definition await {X R : Type} (call : pipelineE (Error + X)) (rest : X -> Promise R)
  : Promise R :=
  ITree.bind (ITree.trigger call)
    (fun answer =>
       match answer with
       | inl e => Ret (inl e)
       | inr x => rest x
       end).

(** A Promise awaited inside the function. *)
Definition andThen {X R : Type} (p : Promise X) (rest : X -> Promise R) : Promise R :=
  ITree.bind p
    (fun answer =>
       match answer with
       | inl e => Ret (inl e)
       | inr x => rest x
       end).

(** A call that cannot fail, followed by the rest of the function. *)
Definition perform {X R : Type} (call : pipelineE X) (rest : X -> itree pipelineE R)
  : itree pipelineE R :=
  ITree.bind (ITree.trigger call) rest.

(** [!operation.done] reads an optional flag. *)
Definition isDone (operation : GenerateVideosOperation) : bool :=
  match done operation with
  | Some true => true
  | _ => false
  end.

(** The [for ... of] loop over [params.productImages], pushing onto
    [referenceImagesPayload]. *)
Definition toReference (img : ImageFile) : VideoGenerationReferenceImage :=
  mkReference (mkImage (base64 img) (file_type (file img))) ASSET.

Fixpoint pushReferences (imgs : list ImageFile)
    (referenceImagesPayload : list VideoGenerationReferenceImage)
  : itree pipelineE (list VideoGenerationReferenceImage) :=
  match imgs with
  | [] => Ret referenceImagesPayload
  | img :: rest =>
      perform (ConsoleLog (LogAddingImage (file_name (file img)))) (fun _ =>
      pushReferences rest (referenceImagesPayload ++ [toReference img]))
  end.

(** One turn of [while (!operation.done)]: leave with the handle, or
    wait, log, re-query and go round with the refreshed handle. *)
Definition pollBody (operation : GenerateVideosOperation)
  : itree pipelineE (GenerateVideosOperation + (Error + GenerateVideosOperation)) :=
  if isDone operation then Ret (inr (inr operation))
  else
    perform (SetTimeout 10000) (fun _ =>
    perform (ConsoleLog LogGenerating) (fun _ =>
    perform (GetVideosOperation operation) (fun answer =>
      match answer with
      | inl e => Ret (inr (inl e))
      | inr refreshed => Ret (inl refreshed)
      end))).

Definition pollLoop (operation : GenerateVideosOperation)
  : Promise GenerateVideosOperation :=
  ITree.iter pollBody operation.

Section GenerateVideo.

(** [process.env.API_KEY] as a template literal prints it, and the
    built-in [decodeURIComponent], which throws on a malformed escape. *)
Variable API_KEY : jsstring.
Variable decodeURIComponent : jsstring -> Error + jsstring.

(** What follows the loop. *)
Definition deliver (operation : GenerateVideosOperation) : Promise VideoResult :=
  match response operation with
  | Some response =>
      let videos := generatedVideos response in
      match videos with
      | None | Some [] => throw (lit "No videos were generated.")
      | Some (firstVideo :: _) =>
          match video firstVideo with
          | None => throw (lit "Generated video is missing a URI.")
          | Some videoObject =>
              match uri videoObject with
              | None | Some [] => throw (lit "Generated video is missing a URI.")
              | Some videoUri =>
                  match decodeURIComponent videoUri with
                  | inl e => Ret (inl e)
                  | inr url =>
                      perform (ConsoleLog (LogFetching url)) (fun _ =>
                      await (Fetch (url ++ lit "&key=" ++ API_KEY)) (fun res =>
                      if negb (ok res) then
                        throw (lit "Failed to fetch video: " ++ ofNumber (status res)
                                 ++ lit " " ++ statusText res)
                      else
                        await (ResBlob res) (fun videoBlob =>
                        perform (CreateObjectURL videoBlob) (fun objectUrl =>
                        resolve (mkResult objectUrl videoBlob url videoObject)))))
                  end
              end
          end
      end
  | None =>
      perform (ConsoleError (LogOperationFailed operation)) (fun _ =>
      throw (lit "No videos generated."))
  end.

Definition payloadOf (params : GenerateVideoParams)
    (referenceImagesPayload : list VideoGenerationReferenceImage)
  : GenerateVideosParameters :=
  mkPayload (model params) (constructPrompt params)
            (mkConfig 1 (resolution params) (aspectRatio params)
                      referenceImagesPayload).

(** The client object [ai] is the environment that answers
    [GenerateVideos] and [GetVideosOperation].  The test
    [if (params.productImages)] is on an array, which is always truthy, so
    the loop over the images always runs. *)
Definition generateVideo (params : GenerateVideoParams) : Promise VideoResult :=
  perform (ConsoleLog (LogStarting params)) (fun _ =>
  let finalPrompt := constructPrompt params in
  perform (ConsoleLog (LogPrompt finalPrompt)) (fun _ =>
  ITree.bind (pushReferences (productImages params) []) (fun referenceImagesPayload =>
  let generateVideoPayload := payloadOf params referenceImagesPayload in
  perform (ConsoleLog (LogSubmitting generateVideoPayload)) (fun _ =>
  await (GenerateVideos generateVideoPayload) (fun operation =>
  perform (ConsoleLog (LogStarted operation)) (fun _ =>
  andThen (pollLoop operation) deliver)))))).

End GenerateVideo.

(** *** A mocked environment

    The service, the timer and the transport as one deterministic state
    machine over a state [S] of its own; every call is recorded. *)

Variant Call :=
| Logged (entry : LogEntry)
| LoggedError (entry : LogEntry)
| Submitted (payload : GenerateVideosParameters)
| Waited (ms : N)
| Polled (operation : GenerateVideosOperation)
| Fetched (url : jsstring)
| BlobRead (res : FetchResponse)
| ObjectURLCreated (b : Blob).

Record Mock (S : Type) := mkMock {
  generateVideos : GenerateVideosParameters -> S -> S * (Error + GenerateVideosOperation);
  getVideosOperation : GenerateVideosOperation -> S -> S * (Error + GenerateVideosOperation);
  elapse : N -> S -> S;
  fetch : jsstring -> S -> S * (Error + FetchResponse);
  resBlob : FetchResponse -> S -> S * (Error + Blob);
  createObjectURL : Blob -> S -> S * jsstring
}.

Definition callOf {X : Type} (e : pipelineE X) : Call :=
  match e with
  | ConsoleLog entry => Logged entry
  | ConsoleError entry => LoggedError entry
  | GenerateVideos payload => Submitted payload
  | SetTimeout ms => Waited ms
  | GetVideosOperation operation => Polled operation
  | Fetch url => Fetched url
  | ResBlob res => BlobRead res
  | CreateObjectURL b => ObjectURLCreated b
  end.

Definition answer {S : Type} (mock : Mock S) {X : Type} (e : pipelineE X) (s : S)
  : S * X :=
  match e in pipelineE X return S * X with
  | ConsoleLog _ => (s, tt)
  | ConsoleError _ => (s, tt)
  | GenerateVideos payload => generateVideos mock payload s
  | SetTimeout ms => (elapse mock ms s, tt)
  | GetVideosOperation operation => getVideosOperation mock operation s
  | Fetch url => fetch mock url s
  | ResBlob res => resBlob mock res s
  | CreateObjectURL b => createObjectURL mock b s
  end.

(** The state of a run: the mock's state and the calls made so far,
    oldest first. *)
Definition World (S : Type) : Type := (S * list Call)%type.

Definition record {S : Type} (mock : Mock S) {X : Type} (e : pipelineE X)
    (w : World S) : World S * X :=
  ((fst (answer mock e (fst w)), snd w ++ [callOf e]), snd (answer mock e (fst w))).

Definition handler {S : Type} (mock : Mock S)
  : pipelineE ~> Monads.stateT (World S) (itree void1) :=
  fun X e w => Ret (record mock e w).

(** Running a computation against the mock. *)
Definition runWith {S R : Type} (mock : Mock S) (t : itree pipelineE R) (w : World S)
  : itree void1 (World S * R) :=
  interp_state (handler mock) t w.

(** The calls of a kind in a trace. *)
Definition isPoll (c : Call) : bool :=
  match c with Polled _ => true | _ => false end.

Definition isFetch (c : Call) : bool :=
  match c with Fetched _ => true | _ => false end.

Definition isLog (c : Call) : bool :=
  match c with Logged _ | LoggedError _ => true | _ => false end.

Definition serviceCalls (trace : list Call) : list Call :=
  List.filter (fun c => negb (isLog c)) trace.

End Pipeline.

(* ===================================================================== *)
(** ** Vocabulary of the statements and the inputs of the examples *)
(* ===================================================================== *)

(** [{...params, targetAudience: audience}] *)
Definition withTargetAudience (audience : jsstring) (params : GenerateVideoParams)
  : GenerateVideoParams :=
  mkParams (productName params) (keyFeatures params) audience (videoStyle params)
           (productImages params) (model params) (aspectRatio params)
           (resolution params) (prompt params) (mode params)
           (inputVideoObject params).

(** Two requests that agree on the four fields the prompt is built from. *)
Definition samePromptFields (p q : GenerateVideoParams) : Prop :=
  videoStyle p = videoStyle q /\ productName p = productName q
  /\ targetAudience p = targetAudience q /\ keyFeatures p = keyFeatures q.

Definition standPhoto : ImageFile :=
  mkImageFile (mkFile (lit "stand.png") (lit "image/png")) (lit "iVBORw0KGgo=").

Definition standSide : ImageFile :=
  mkImageFile (mkFile (lit "side.jpg") (lit "image/jpeg")) (lit "/9j/4AAQSkZJRg==").

Definition standParams : GenerateVideoParams :=
  mkParams (lit "Laptop Stand")
           (lit "  - Portable " ++ nl ++ nl ++ lit "- Sturdy")
           [] MODERN [standPhoto] VEO LANDSCAPE P720 None None None.

(** A request whose key-features field holds blanks only. *)
Definition blankFeaturesParams : GenerateVideoParams :=
  mkParams (lit "Mug") (lit "  ") [] MINIMALIST [standPhoto] VEO_FAST PORTRAIT P1080
           None None None.

(** A form whose name field holds one space, with one image uploaded. *)
Definition blankNameForm : Collector.FormState :=
  Collector.mkForm (lit " ") [] [] MODERN [standPhoto] VEO LANDSCAPE P720 false.

Definition sixImagesForm : Collector.FormState :=
  Collector.mkForm (lit "Mug") [] [] MODERN
    [standPhoto; standSide; standPhoto; standSide; standPhoto; standSide]
    VEO LANDSCAPE P720 false.

(** The part of the prompt before the key-features block and the part
    after it. *)
Definition beforeFeatures (params : GenerateVideoParams) : jsstring :=
  opening params
    ++ (if truthy (targetAudience params)
        then audienceSentence (targetAudience params) else []).

Definition afterFeatures : jsstring := closingQuality ++ closingImages.

(** The prompt mentions the lead-in sentence of the features block. *)
Definition listsFeatures (params : GenerateVideoParams) : bool :=
  includes featuresLeadIn (constructPrompt params).

(** The same product, requested with other images and output settings. *)
Definition standParamsPortrait : GenerateVideoParams :=
  mkParams (lit "Laptop Stand")
           (lit "  - Portable " ++ nl ++ nl ++ lit "- Sturdy")
           [] MODERN [standSide; standPhoto] VEO_FAST PORTRAIT P1080
           (Some (lit "old prompt")) None None.

(** The name typed and six uploads made in the empty form. *)
Definition sixUploads : list Collector.Action :=
  [Collector.ChangeProductName (lit "Mug");
   Collector.SelectImage standPhoto; Collector.SelectImage standSide;
   Collector.SelectImage standPhoto; Collector.SelectImage standSide;
   Collector.SelectImage standPhoto; Collector.SelectImage standSide].

(** *** Vocabulary for runs of the pipeline *)

Module Runs.

Import GenAI Pipeline.

(** The calls of one turn of the poll loop on a handle. *)
Definition pollCalls (handles : list GenerateVideosOperation) : list Call :=
  List.flat_map
    (fun h => [Waited 10000; Logged LogGenerating; Polled h]) handles.

(** [Completes mock op s handles op' s']: from state [s], the mock
    answers a re-query of [op] made ten seconds later with a refreshed
    handle, which is re-queried in turn, until a handle has its completion
    flag set; [handles] are the handles that are re-queried, in order;
    [op'] is the completed one. *)
Inductive Completes {S : Type} (mock : Mock S)
  : GenerateVideosOperation -> S -> list GenerateVideosOperation
    -> GenerateVideosOperation -> S -> Prop :=
| Completes_now (op : GenerateVideosOperation) (s : S) :
    isDone op = true -> Completes mock op s [] op s
| Completes_later (op refreshed final : GenerateVideosOperation)
    (s s1 s' : S) (handles : list GenerateVideosOperation) :
    isDone op = false ->
    getVideosOperation mock op (elapse mock 10000 s) = (s1, inr refreshed) ->
    Completes mock refreshed s1 handles final s' ->
    Completes mock op s (op :: handles) final s'.

(** The log lines of the loop over the images. *)
Definition imageLogs (imgs : list ImageFile) : list Call :=
  List.map (fun img => Logged (LogAddingImage (file_name (file img)))) imgs.

(** The request [generateVideo] submits for [params]. *)
Definition submission (params : GenerateVideoParams) : GenerateVideosParameters :=
  payloadOf params (List.map toReference (productImages params)).

(** The calls up to and including the submission that answered with
    [operation]. *)
Definition submitCalls (params : GenerateVideoParams)
    (operation : GenerateVideosOperation) : list Call :=
  [Logged (LogStarting params); Logged (LogPrompt (constructPrompt params))]
    ++ imageLogs (productImages params)
    ++ [Logged (LogSubmitting (submission params));
        Submitted (submission params);
        Logged (LogStarted operation)].

End Runs.

(** *** A scripted service for the examples

    The submission answers with a fixed handle, each re-query answers
    with the next handle of the script (the state of the mock), the
    transport answers every fetch with the same response. *)

Module Scripted.

Import GenAI Pipeline.

Definition operationName : option jsstring := Some (lit "operations/42").

Definition submitted : GenerateVideosOperation :=
  mkOperation operationName None None.

Definition running : GenerateVideosOperation :=
  mkOperation operationName (Some false) None.

Definition clip : Video :=
  mkVideo (Some (lit "https://videos.example/clip.mp4?alt=media")) None
          (Some (lit "video/mp4")).

Definition finished : GenerateVideosOperation :=
  mkOperation operationName (Some true)
              (Some (mkResponse (Some [mkGeneratedVideo (Some clip)]))).

Definition finishedEmpty : GenerateVideosOperation :=
  mkOperation operationName (Some true) (Some (mkResponse (Some []))).

Definition found : FetchResponse := mkFetchResponse true 200 (lit "OK").

Definition forbidden : FetchResponse := mkFetchResponse false 403 (lit "Forbidden").

Definition clipBytes : Blob := mkBlob [0; 0; 0; 24; 102; 116; 121; 112]%N.

Definition service (fetched : FetchResponse) : Mock (list GenerateVideosOperation) :=
  mkMock
    (fun _ script => (script, inr submitted))
    (fun _ script =>
       match script with
       | [] => (script, inl (mkError (lit "operation not found")))
       | next :: later => (later, inr next)
       end)
    (fun _ script => script)
    (fun _ script => (script, inr fetched))
    (fun _ script => (script, inr clipBytes))
    (fun _ script => (script, lit "blob:clip")).

Definition key : jsstring := lit "test-key".

(** [decodeURIComponent] on strings without a percent sign. *)
Definition decode (s : jsstring) : Error + jsstring := inr s.

End Scripted.

(** *** Reading a decimal numeral

    The statements about an interpolated number say what the digits
    denote, by reading them back. *)

(** The value of a decimal digit. *)
Definition digitValue (c : code_unit) : option N :=
  if ((0x30 <=? c) && (c <=? 0x39))%N then Some (c - 0x30)%N else None.

(** Reading digits from the left, [acc] being the value read so far. *)
Fixpoint decimalFrom (acc : N) (s : jsstring) : option N :=
  match s with
  | [] => Some acc
  | c :: rest =>
      match digitValue c with
      | Some d => decimalFrom (10 * acc + d)%N rest
      | None => None
      end
  end.

(** The number a non-empty string of decimal digits denotes. *)
Definition decimalValue (s : jsstring) : option N :=
  match s with
  | [] => None
  | _ :: _ => decimalFrom 0 s
  end.

(** A numeral without a superfluous leading zero. *)
Definition canonicalDecimal (s : jsstring) : Prop :=
  s = lit "0" \/ exists c rest, s = c :: rest /\ c <> 0x30%N.

(* ===================================================================== *)
(** ** components/PromptForm.tsx: reading an uploaded file *)
(* ===================================================================== *)

Module Upload.

Definition comma : code_unit := 44%N.

(** [fileToBase64]: [read] is what the [FileReader] ends with, the data
    URL handed to [onload] or the value handed to [onerror].  The
    payload is [result.split(',')[1]]; an index past the end reads
    [undefined], which is falsy like the empty string. *)
Definition fileToBase64 (file : File) (read : Error + jsstring) : Error + ImageFile :=
  match read with
  | inr result =>
      match nth_error (split comma result) 1 with
      | Some base64 =>
          if truthy base64 then inr (mkImageFile file base64)
          else inl (mkError (lit "Failed to read file as base64."))
      | None => inl (mkError (lit "Failed to read file as base64."))
      end
  | inl error => inl error
  end.

Definition fileToImageFile (file : File) (read : Error + jsstring)
  : Error + ImageFile :=
  fileToBase64 file read.

(** What one run of [handleFileChange] does: the image passed to
    [onSelect], the error passed to [console.error], and whether the
    value of the file input was reset. *)
Record ChangeOutcome := mkOutcome {
  selected : option ImageFile;
  logged : option Error;
  inputReset : bool
}.

(** [handleFileChange]: [files] is [e.target.files], [read] the outcome
    of reading a file, [inputMounted] whether [inputRef.current] is set
    when the handler resumes. *)
Definition handleFileChange (files : list File) (read : File -> Error + jsstring)
    (inputMounted : bool) : ChangeOutcome :=
  match files with
  | file :: _ =>
      match fileToImageFile file (read file) with
      | inr imageFile => mkOutcome (Some imageFile) None inputMounted
      | inl error => mkOutcome None (Some error) inputMounted
      end
  | [] => mkOutcome None None inputMounted
  end.

(** The form with uploads in flight.  Choosing a file on the "Add
    Image" tile starts [handleFileChange], which suspends at its [await];
    when the read ends the handler resumes and calls the tile's
    [onSelect], the updater [imgs => [...imgs, img]]. *)
Record Session := mkSession {
  form : Collector.FormState;
  reading : list File
}.

Inductive Event :=
| Act (a : Collector.Action)
| Choose (file : File)
| ReadEnds (i : nat) (read : Error + jsstring).

(** [Act] is a synchronous action of the form other than an upload;
    [Choose] needs the tile to be rendered; [ReadEnds i] resumes the
    [i]-th suspended handler, whose read has ended with [read]. *)
Definition react (ss : Session) (ev : Event) : option Session :=
  match ev with
  | Act (Collector.SelectImage _) => None
  | Act a =>
      match Collector.step (form ss) a with
      | Some st => Some (mkSession st (reading ss))
      | None => None
      end
  | Choose file =>
      if Collector.addImageRendered (form ss)
      then Some (mkSession (form ss) (reading ss ++ [file]))
      else None
  | ReadEnds i read =>
      match nth_error (reading ss) i with
      | None => None
      | Some file =>
          let others := firstn i (reading ss) ++ skipn (S i) (reading ss) in
          match selected (handleFileChange [file] (fun _ => read) true) with
          | Some img =>
              Some (mkSession
                      (Collector.setProductImages (Collector.append img) (form ss))
                      others)
          | None => Some (mkSession (form ss) others)
          end
      end
  end.

Fixpoint play (ss : Session) (events : list Event) : option Session :=
  match events with
  | [] => Some ss
  | ev :: rest =>
      match react ss ev with
      | Some ss' => play ss' rest
      | None => None
      end
  end.

(** The data URL a [FileReader] produces for base64 text [payload]. *)
Definition dataURL (mime payload : jsstring) : jsstring :=
  lit "data:" ++ mime ++ lit ";base64," ++ payload.

(** The characters of base64 text. *)
Definition isBase64Unit (c : code_unit) : bool :=
  (((0x41 <=? c) && (c <=? 0x5A)) || ((0x61 <=? c) && (c <=? 0x7A))
   || ((0x30 <=? c) && (c <=? 0x39)) || (c =? 0x2B) || (c =? 0x2F)
   || (c =? 0x3D))%N.

End Upload.

(* ===================================================================== *)
(** ** More vocabulary for runs of the pipeline *)
(* ===================================================================== *)

Module MoreRuns.

Import GenAI Pipeline.

(** [PollRejects mock op s handles e s']: the handles [handles] are
    re-queried in turn from [op], none of them complete, and the re-query
    of the last one is rejected with [e]. *)
Inductive PollRejects {S : Type} (mock : Mock S)
  : GenerateVideosOperation -> S -> list GenerateVideosOperation
    -> Error -> S -> Prop :=
| PollRejects_now (op : GenerateVideosOperation) (s s' : S) (e : Error) :
    isDone op = false ->
    getVideosOperation mock op (elapse mock 10000 s) = (s', inl e) ->
    PollRejects mock op s [op] e s'
| PollRejects_later (op refreshed : GenerateVideosOperation) (s s1 s' : S)
    (handles : list GenerateVideosOperation) (e : Error) :
    isDone op = false ->
    getVideosOperation mock op (elapse mock 10000 s) = (s1, inr refreshed) ->
    PollRejects mock refreshed s1 handles e s' ->
    PollRejects mock op s (op :: handles) e s'.

(** A service that stays busy: in every state that satisfies [busy],
    a re-query made ten seconds later is answered with a handle that is
    not complete, and leaves the service in such a state. *)
Definition StaysBusy {S : Type} (mock : Mock S) (busy : S -> Prop) : Prop :=
  forall (op : GenerateVideosOperation) (s : S),
    busy s ->
    exists (s' : S) (refreshed : GenerateVideosOperation),
      getVideosOperation mock op (elapse mock 10000 s) = (s', inr refreshed)
      /\ isDone refreshed = false /\ busy s'.

(** The calls to the service, the timer and the transport of a run
    that submits, re-queries [handles] and then makes [last]. *)
Definition serviceTrace (params : GenerateVideoParams)
    (handles : list GenerateVideosOperation) (last : list Call) : list Call :=
  Submitted (Runs.submission params)
    :: List.flat_map (fun h => [Waited 10000; Polled h]) handles ++ last.

(** A descriptor without a usable URI: no video object, no URI, or the
    empty URI. *)
Definition lacksUri (first : GeneratedVideo) : Prop :=
  match video first with
  | None => True
  | Some videoObject =>
      match uri videoObject with
      | None => True
      | Some u => u = []
      end
  end.

End MoreRuns.

(** A service that never completes an operation. *)
Definition busyService : Pipeline.Mock nat :=
  Pipeline.mkMock
    (fun _ polls => (polls, inr Scripted.submitted))
    (fun _ polls => (S polls, inr Scripted.running))
    (fun _ polls => polls)
    (fun _ polls => (polls, inr Scripted.found))
    (fun _ polls => (polls, inr Scripted.clipBytes))
    (fun _ polls => (polls, lit "blob:clip")).

(** The tooltip element is rendered under [isSubmitDisabled && tooltipText]. *)
Definition tooltipRendered (st : Collector.FormState) : bool :=
  Collector.isSubmitDisabled st && truthy (Collector.tooltipText st).

(** A string of white space only. *)
Definition allWhiteSpace (s : jsstring) : Prop :=
  Forall (fun c => isWhiteSpace c = true) s.

(** One turn of the poll loop against a mock, as a function of the
    handle and the state of the run: the new state, and the refreshed
    handle to go round with or what the loop leaves with. *)
Definition pollTurn {S : Type} (mock : Pipeline.Mock S)
    (op : GenAI.GenerateVideosOperation) (w : Pipeline.World S)
  : Pipeline.World S
    * (GenAI.GenerateVideosOperation + (Error + GenAI.GenerateVideosOperation)) :=
  if Pipeline.isDone op then (w, inr (inr op))
  else
    ((fst (Pipeline.getVideosOperation mock op (Pipeline.elapse mock 10000 (fst w))),
      snd w ++ Runs.pollCalls [op]),
     match snd (Pipeline.getVideosOperation mock op
                  (Pipeline.elapse mock 10000 (fst w))) with
     | inl e => inr (inl e)
     | inr refreshed => inl refreshed
     end).

(** What a poll loop that has left went through: started on [op] in
    state [s] with the calls [tr] made before it, it has re-queried
    [handles]; it left with a handle because the service completed the
    operation, or with an error because a re-query was rejected. *)
Definition loopCause {S : Type} (mock : Pipeline.Mock S)
    (op : GenAI.GenerateVideosOperation) (s : S) (tr : list Pipeline.Call)
    (x : Pipeline.World S * (Error + GenAI.GenerateVideosOperation)) : Prop :=
  exists handles,
    snd (fst x) = tr ++ Runs.pollCalls handles
    /\ match snd x with
       | inr final => Runs.Completes mock op s handles final (fst (fst x))
       | inl e => MoreRuns.PollRejects mock op s handles e (fst (fst x))
       end.

(** The lines of the key-features block, before they are joined. *)
Definition normalizedLines (features : jsstring) : list jsstring :=
  List.filter truthy (List.map trim (split LF features)).

(** A line as the block prints it: not empty, no white space at either
    end, no newline inside. *)
Definition cleanLine (line : jsstring) : Prop :=
  line <> [] /\ trim line = line /\ ~ In LF line.

(** The eight fields of a request, without the deprecated ones. *)
Definition currentFields (v : GenerateVideoParams) : GenerateVideoParams :=
  mkParams (productName v) (keyFeatures v) (targetAudience v) (videoStyle v)
           (productImages v) (model v) (aspectRatio v) (resolution v)
           None None None.

(** A name with something to read in it. *)
Definition hasVisibleUnit (s : jsstring) : Prop :=
  exists c, In c s /\ isWhiteSpace c = false.

(** An upload followed by the removal of the image at [index]. *)
Definition uploadThenRemove (img : ImageFile) (index : nat)
    (st : Collector.FormState) : option Collector.FormState :=
  match Collector.step st (Collector.SelectImage img) with
  | Some st' => Collector.step st' (Collector.RemoveImage index)
  | None => None
  end.

(** An image whose file was read into the data URL of its base64 text. *)
Definition readable (img : ImageFile) : Prop :=
  base64 img <> []
  /\ Forall (fun c => Upload.isBase64Unit c = true) (base64 img)
  /\ ~ In Upload.comma (file_type (file img)).

(** The events of choosing the file of each image, and of the end of a
    read of the oldest file in flight for each image. *)
Definition chooseAll (imgs : list ImageFile) : list Upload.Event :=
  List.map (fun img => Upload.Choose (file img)) imgs.

Definition readAll (imgs : list ImageFile) : list Upload.Event :=
  List.map
    (fun img =>
       Upload.ReadEnds 0 (inr (Upload.dataURL (file_type (file img)) (base64 img))))
    imgs.

(** *** A service with chosen answers, for the examples *)

Module Stub.

Import GenAI Pipeline.

Record Answers := mkAnswers {
  submitAnswer : Error + GenerateVideosOperation;
  fetchAnswer : Error + FetchResponse;
  bodyAnswer : Error + Blob
}.

(** Re-queries answer with the next handle of the script, and are
    rejected when the script is used up. *)
Definition service (a : Answers) : Mock (list GenerateVideosOperation) :=
  mkMock
    (fun _ script => (script, submitAnswer a))
    (fun _ script =>
       match script with
       | [] => (script, inl (mkError (lit "operation not found")))
       | next :: later => (later, inr next)
       end)
    (fun _ script => script)
    (fun _ script => (script, fetchAnswer a))
    (fun _ script => (script, bodyAnswer a))
    (fun _ script => (script, lit "blob:clip")).

Definition quotaExceeded : Error := mkError (lit "RESOURCE_EXHAUSTED").

Definition networkDown : Error := mkError (lit "Failed to fetch").

Definition bodyLost : Error := mkError (lit "network error").

Definition uriMalformed : Error := mkError (lit "URI malformed").

Definition allFine : Answers :=
  mkAnswers (inr Scripted.submitted) (inr Scripted.found) (inr Scripted.clipBytes).

(** A completed handle without a response. *)
Definition finishedBare : GenerateVideosOperation :=
  mkOperation Scripted.operationName (Some true) None.

(** A completed handle whose first descriptor has no URI, before one
    that has. *)
Definition finishedNoUri : GenerateVideosOperation :=
  mkOperation Scripted.operationName (Some true)
    (Some (mkResponse (Some [mkGeneratedVideo (Some (mkVideo None None None));
                             mkGeneratedVideo (Some Scripted.clip)]))).

(** A decoder that refuses every string. *)
Definition refuse (s : jsstring) : Error + jsstring := inl uriMalformed.

End Stub.

Definition fiveImagesForm : Collector.FormState :=
  Collector.mkForm (lit "Mug") [] [] MODERN
    [standPhoto; standSide; standPhoto; standSide; standPhoto]
    VEO LANDSCAPE P720 false.

(** A session in which one read is in flight. *)
Definition oneReadInFlight : Upload.Session :=
  Upload.mkSession fiveImagesForm [file standSide].

(** Five uploads made one after the other in the empty, unseeded form,
    then two files chosen on the tile before either read has ended, then
    the end of the two reads. *)
Definition upload (img : ImageFile) : list Upload.Event :=
  [Upload.Choose (file img);
   Upload.ReadEnds 0 (inr (Upload.dataURL (file_type (file img)) (base64 img)))].

Definition hastyUploads : list Upload.Event :=
  [Upload.Act (Collector.ChangeProductName (lit "Mug"))]
    ++ upload standPhoto ++ upload standSide ++ upload standPhoto
    ++ upload standSide ++ upload standPhoto
    ++ chooseAll [standSide; standPhoto] ++ readAll [standSide; standPhoto].

Definition sevenImagesForm : Collector.FormState :=
  Collector.mkForm (lit "Mug") [] [] MODERN
    [standPhoto; standSide; standPhoto; standSide; standPhoto; standSide;
     standPhoto]
    VEO LANDSCAPE P720 false.

(* ===================================================================== *)
(** * Properties *)
(* ===================================================================== *)

Unset Implicit Arguments.

(** ** Strings *)

Lemma truthy_false (s : jsstring) : truthy s = false <-> s = [].
Proof. destruct s; simpl; split; congruence. Qed.

Lemma truthy_true (s : jsstring) : truthy s = true <-> s <> [].
Proof. destruct s; simpl; split; congruence. Qed.

Lemma startsWith_app (p s : jsstring) : startsWith p (p ++ s) = true.
Proof.
  induction p as [|c p IH]; simpl; [reflexivity|].
  now rewrite N.eqb_refl, IH.
Qed.

Example trim_strips_both_ends :
  trim ([0x09; 0xA0] ++ lit " a b " ++ [0x0D; 0x2028])%N = lit "a b".
Proof. reflexivity. Qed.

Example split_keeps_empty_pieces :
  split LF (lit "a" ++ nl ++ nl ++ lit "b" ++ nl) = [lit "a"; []; lit "b"; []].
Proof. reflexivity. Qed.

Example split_of_empty : split LF [] = [[]].
Proof. reflexivity. Qed.

Example join_with_newline :
  join nl [lit "a"; lit "b"; lit "c"] = lit "a" ++ nl ++ lit "b" ++ nl ++ lit "c".
Proof. reflexivity. Qed.

Example status_in_decimal : ofNumber 404 = lit "404".
Proof. reflexivity. Qed.

Example styles_lowercased :
  List.map (fun s => toLowerCase (VideoStyle_value s))
           [MODERN; MINIMALIST; ENERGETIC; INFORMATIONAL] =
  [lit "sleek & modern"; lit "minimalist"; lit "energetic & fast-paced";
   lit "informational"].
Proof. reflexivity. Qed.

(** [split] never returns the empty array. *)
Lemma split_nonempty (sep : code_unit) (s : jsstring) : split sep s <> [].
Proof.
  induction s as [|c s IH]; cbn [split]; [discriminate|].
  destruct (c =? sep)%N; [discriminate|].
  destruct (split sep s); [contradiction | discriminate].
Qed.

(** Joining the pieces of a split with the separator gives the string
    back. *)
Lemma join_split (sep : code_unit) (s : jsstring) : join [sep] (split sep s) = s.
Proof.
  induction s as [|c s IH]; [reflexivity|]. cbn [split].
  destruct (N.eqb_spec c sep) as [->|Hne].
  - pose proof (split_nonempty sep s) as Hne.
    destruct (split sep s) as [|piece pieces]; [contradiction|].
    cbn [join app] in *. now rewrite IH.
  - pose proof (split_nonempty sep s) as Hs.
    destruct (split sep s) as [|piece pieces]; [contradiction|].
    destruct pieces as [|next pieces]; cbn [join app] in *; now rewrite <- IH.
Qed.

(** A trimmed string starts with no white space. *)
Lemma trimStart_head (s : jsstring) :
  match trimStart s with
  | [] => True
  | c :: _ => isWhiteSpace c = false
  end.
Proof.
  induction s as [|c s IH]; cbn [trimStart]; [exact I|].
  destruct (isWhiteSpace c) eqn:Hc; [exact IH | exact Hc].
Qed.

(** ** constructPrompt *)

Section PromptFacts.

Variable params : GenerateVideoParams.

(** The four appends of the function, written as one concatenation. *)
Lemma constructPrompt_blocks :
  constructPrompt params =
  opening params
    ++ (if truthy (targetAudience params)
        then audienceSentence (targetAudience params) else [])
    ++ (if truthy (keyFeatures params)
        then featuresBlock (keyFeatures params) else [])
    ++ closingQuality ++ closingImages.
Proof.
  unfold constructPrompt.
  destruct (truthy (targetAudience params)), (truthy (keyFeatures params));
    cbn [app]; rewrite <- ?app_assoc; try reflexivity;
    rewrite ?app_nil_r; reflexivity.
Qed.

(** The prompt starts with the opening sentence and its blank line. *)
Lemma constructPrompt_startsWith_opening :
  startsWith (opening params) (constructPrompt params) = true.
Proof. rewrite constructPrompt_blocks. apply startsWith_app. Qed.

End PromptFacts.

Example stand_prompt :
  constructPrompt (withTargetAudience (lit "students") standParams) =
  lit "Create a sleek & modern, 15-second e-commerce product video for the 'Laptop Stand'."
    ++ nl ++ nl
    ++ lit "The video should be dynamic and engaging, targeting students."
    ++ nl ++ nl
    ++ lit "Showcase the following key features:" ++ nl
    ++ lit "- Portable" ++ nl ++ lit "- Sturdy" ++ nl ++ nl
    ++ closingQuality ++ closingImages.
Proof. vm_compute. reflexivity. Qed.

(** C1, as stated, fails: a key-features field of two spaces is empty
    after trimming, yet the prompt carries the lead-in sentence, followed
    by an empty list of features. *)
Lemma blank_features_lead_in_kept :
  trim (keyFeatures blankFeaturesParams) = []
  /\ listsFeatures blankFeaturesParams = true
  /\ constructPrompt blankFeaturesParams =
     lit "Create a minimalist, 15-second e-commerce product video for the 'Mug'."
       ++ nl ++ nl
       ++ lit "Showcase the following key features:" ++ nl ++ nl ++ nl
       ++ closingQuality ++ closingImages.
Proof. repeat split; vm_compute; reflexivity. Qed.

(** C1 (amended): the key-features block is present exactly when the
    keyFeatures field is a non-empty string, whatever it trims to.  When
    present, it is the lead-in sentence, a newline, the lines of the field
    (split on newlines, each trimmed, empty ones dropped, rejoined with
    newlines) and a blank line; when the field is empty, nothing stands
    between the audience part and the closing guidance. *)
Theorem features_block_iff_field_nonempty (params : GenerateVideoParams) :
  (keyFeatures params <> []
   /\ constructPrompt params =
      beforeFeatures params
        ++ lit "Showcase the following key features:" ++ nl
        ++ join nl (List.filter truthy (List.map trim (split LF (keyFeatures params))))
        ++ nl ++ nl
        ++ afterFeatures)
  \/ (keyFeatures params = []
      /\ constructPrompt params = beforeFeatures params ++ afterFeatures).
Proof.
  rewrite constructPrompt_blocks. unfold beforeFeatures, afterFeatures.
  destruct (keyFeatures params) as [|c rest] eqn:Hkf; [right | left].
  - split; [reflexivity|]. cbn [truthy app]. now rewrite <- app_assoc.
  - split; [discriminate|]. cbn [truthy].
    unfold featuresBlock, featureLines, featuresLeadIn.
    now rewrite <- !app_assoc.
Qed.


(** C7: with the audience empty before and non-empty after, the new
    prompt is the old one with the audience sentence inserted right after
    the opening; the text before and after it is unchanged. *)
Theorem audience_only_adds_its_sentence
    (params : GenerateVideoParams) (a : jsstring)
    (Hempty : targetAudience params = []) (Ha : a <> []) :
  exists rest,
    constructPrompt params = opening params ++ rest
    /\ constructPrompt (withTargetAudience a params) =
       opening params
         ++ (lit "The video should be dynamic and engaging, targeting "
               ++ a ++ lit "." ++ nl ++ nl)
         ++ rest.
Proof.
  exists ((if truthy (keyFeatures params)
           then featuresBlock (keyFeatures params) else [])
          ++ closingQuality ++ closingImages).
  rewrite !constructPrompt_blocks. cbn [withTargetAudience targetAudience keyFeatures].
  rewrite Hempty. apply truthy_true in Ha. rewrite Ha. cbn [truthy app].
  split; reflexivity.
Qed.

Lemma audience_only_adds_its_sentence_witness :
  exists rest,
    constructPrompt standParams = opening standParams ++ rest
    /\ constructPrompt (withTargetAudience (lit "students") standParams) =
       opening standParams
         ++ (lit "The video should be dynamic and engaging, targeting "
               ++ lit "students" ++ lit "." ++ nl ++ nl)
         ++ rest.
Proof.
  apply (@audience_only_adds_its_sentence standParams (lit "students")).
  - reflexivity.
  - discriminate.
Defined.

(** C10: the prompt is a function of videoStyle, productName,
    targetAudience and keyFeatures alone. *)
Theorem constructPrompt_reads_four_fields (p q : GenerateVideoParams)
    (Hsame : samePromptFields p q) :
  constructPrompt p = constructPrompt q.
Proof.
  destruct Hsame as (Hstyle & Hname & Haudience & Hfeatures).
  unfold constructPrompt, opening.
  now rewrite Hstyle, Hname, Haudience, Hfeatures.
Qed.

Lemma constructPrompt_reads_four_fields_witness :
  productImages standParams <> productImages standParamsPortrait
  /\ constructPrompt standParams = constructPrompt standParamsPortrait.
Proof.
  split; [discriminate|].
  apply (@constructPrompt_reads_four_fields standParams standParamsPortrait).
  repeat split; reflexivity.
Defined.

(** ** The form *)

Section CollectorFacts.

Import Collector.

(** The index-aware filter that drops one index, started at offset [k]. *)
Lemma filterFrom_drop_index {A : Type} (index : nat) (l : list A) (k : nat) :
  k <= index ->
  filterFrom (fun _ i => negb (i =? index)) k l =
  firstn (index - k) l ++ skipn (S (index - k)) l.
Proof.
  revert k. induction l as [|x l IH]; intros k Hk.
  - now rewrite firstn_nil, skipn_nil.
  - cbn [filterFrom]. destruct (Nat.eqb_spec k index) as [->|Hne].
    + cbn [negb]. rewrite Nat.sub_diag. cbn [firstn skipn app].
      clear IH Hk. revert index.
      assert (Hkeep : forall j i, i < j ->
                filterFrom (fun (_ : A) n => negb (n =? i)) j l = l).
      { induction l as [|y l IHl]; intros j i Hlt; [reflexivity|].
        cbn [filterFrom]. destruct (Nat.eqb_spec j i); [lia|].
        cbn [negb]. f_equal. apply IHl. lia. }
      intros index. apply Hkeep. lia.
    + cbn [negb]. rewrite IH by lia.
      replace (index - k) with (S (index - S k)) by lia.
      reflexivity.
Qed.

Lemma removeAt_firstn_skipn (index : nat) (imgs : list ImageFile) :
  removeAt index imgs = firstn index imgs ++ skipn (S index) imgs.
Proof.
  unfold removeAt, Array_filter.
  rewrite filterFrom_drop_index by lia. now rewrite Nat.sub_0_r.
Qed.

Lemma removeAt_length_le (index : nat) (imgs : list ImageFile) :
  List.length (removeAt index imgs) <= List.length imgs.
Proof.
  rewrite removeAt_firstn_skipn, length_app, length_firstn, length_skipn. lia.
Qed.

(** A step keeps the list within six images. *)
Lemma step_keeps_cap (st st' : FormState) (a : Action) :
  List.length (productImages st) <= 6 -> actionOk a -> step st a = Some st' ->
  List.length (productImages st') <= 6.
Proof.
  intros Hcap Hok Hstep. destruct a; cbn [step] in Hstep;
    try (injection Hstep as <-; cbn [productImages]; exact Hcap).
  - unfold addImageRendered in Hstep.
    destruct (Nat.ltb_spec (List.length (productImages st)) 6) as [Hlt|Hge];
      [|discriminate].
    injection Hstep as <-. unfold setProductImages, append. cbn [productImages].
    rewrite length_app. cbn [List.length]. lia.
  - destruct (removeRendered index st); [|discriminate].
    injection Hstep as <-. unfold setProductImages. cbn [productImages].
    pose proof (removeAt_length_le index (productImages st)). lia.
  - injection Hstep as <-. destruct initialValues as [v|]; cbn in *; assumption.
Qed.

Lemma run_keeps_cap (actions : list Action) (st st' : FormState) :
  List.length (productImages st) <= 6 -> Forall actionOk actions ->
  run st actions = Some st' ->
  List.length (productImages st') <= 6.
Proof.
  revert st. induction actions as [|a actions IH]; intros st Hcap Hok Hrun.
  - cbn in Hrun. now injection Hrun as <-.
  - cbn [run] in Hrun. destruct (step st a) as [st1|] eqn:Hstep; [|discriminate].
    inversion Hok as [|? ? Ha Hrest]; subst.
    apply (IH st1); [eapply step_keeps_cap; eassumption | assumption | assumption].
Qed.

End CollectorFacts.

(** C2, as stated, fails: a name of one space is not empty and an image
    is present, yet submission is disabled with the name message. *)
Lemma blank_name_disables_submit :
  Collector.productName blankNameForm <> []
  /\ Collector.productImages blankNameForm <> []
  /\ Collector.isSubmitDisabled blankNameForm = true
  /\ Collector.tooltipText blankNameForm = lit "Please enter a product name.".
Proof. repeat split; try discriminate; vm_compute; reflexivity. Qed.

(** C2 (amended): submission is disabled exactly when the product name is
    empty after trimming or the image list is empty.  The message is the
    combined one when both hold, the name one when only the trimmed name
    is empty, the image one when only the list is empty; otherwise
    submission is enabled and the message is the empty string. *)
Theorem submit_gate (st : Collector.FormState) :
  (Collector.isSubmitDisabled st = true <->
   trim (Collector.productName st) = [] \/ Collector.productImages st = [])
  /\ (trim (Collector.productName st) = [] /\ Collector.productImages st = []
      /\ Collector.tooltipText st =
         lit "Please enter a product name and upload at least one image."
      \/ trim (Collector.productName st) = [] /\ Collector.productImages st <> []
         /\ Collector.tooltipText st = lit "Please enter a product name."
      \/ trim (Collector.productName st) <> [] /\ Collector.productImages st = []
         /\ Collector.tooltipText st = lit "Please upload at least one product image."
      \/ trim (Collector.productName st) <> [] /\ Collector.productImages st <> []
         /\ Collector.isSubmitDisabled st = false /\ Collector.tooltipText st = []).
Proof.
  unfold Collector.tooltipText, Collector.isSubmitDisabled.
  destruct (trim (Collector.productName st)) as [|c name];
    destruct (Collector.productImages st) as [|img imgs]; cbn; split;
    try (split; [intros _; auto | intros _; reflexivity]);
    try (split; [discriminate | intros [H|H]; discriminate]).
  - left. auto.
  - right; left. repeat split; discriminate.
  - right; right; left. repeat split; discriminate.
  - right; right; right. repeat split; discriminate.
Qed.

(** C8: the bound of six images is not kept.  In the empty, unseeded
    form five images are uploaded one after the other; two files are then
    chosen on the "Add Image" tile, which is shown, before either read has
    ended; when the two reads end both images are appended.  The list then
    holds seven images, and submission is enabled. *)
Lemma seven_images_after_hasty_uploads :
  Upload.play (Upload.mkSession (Collector.initialState None) []) hastyUploads
  = Some (Upload.mkSession sevenImagesForm [])
  /\ List.length (Collector.productImages sevenImagesForm) = 7
  /\ Collector.isSubmitDisabled sevenImagesForm = false.
Proof. repeat split. Qed.

(** C9: removing at a valid index yields the entries before it followed
    by the entries after it, so the list is one shorter, the entries
    before the index keep their places and the later ones move up by
    one. *)
Theorem remove_image_at_index (imgs : list ImageFile) (index : nat)
    (Hvalid : index < List.length imgs) :
  Collector.removeAt index imgs = firstn index imgs ++ skipn (S index) imgs
  /\ S (List.length (Collector.removeAt index imgs)) = List.length imgs
  /\ (forall j, j < index ->
        nth_error (Collector.removeAt index imgs) j = nth_error imgs j)
  /\ (forall j, index <= j ->
        nth_error (Collector.removeAt index imgs) j = nth_error imgs (S j)).
Proof.
  rewrite removeAt_firstn_skipn. repeat split.
  - rewrite length_app, length_firstn, length_skipn. lia.
  - intros j Hj. rewrite nth_error_app1 by (rewrite length_firstn; lia).
    rewrite nth_error_firstn.
    destruct (Nat.ltb_spec j index); [reflexivity | lia].
  - intros j Hj. rewrite nth_error_app2 by (rewrite length_firstn; lia).
    rewrite length_firstn, nth_error_skipn. f_equal. lia.
Qed.

Lemma remove_image_at_index_witness :
  Collector.removeAt 1 [standPhoto; standSide; standPhoto] =
    firstn 1 [standPhoto; standSide; standPhoto]
      ++ skipn 2 [standPhoto; standSide; standPhoto]
  /\ S (List.length (Collector.removeAt 1 [standPhoto; standSide; standPhoto])) = 3
  /\ (forall j, j < 1 ->
        nth_error (Collector.removeAt 1 [standPhoto; standSide; standPhoto]) j =
        nth_error [standPhoto; standSide; standPhoto] j)
  /\ (forall j, 1 <= j ->
        nth_error (Collector.removeAt 1 [standPhoto; standSide; standPhoto]) j =
        nth_error [standPhoto; standSide; standPhoto] (S j)).
Proof.
  apply (@remove_image_at_index [standPhoto; standSide; standPhoto] 1).
  simpl. lia.
Defined.

(** ** Numbers in template literals *)

Section DecimalFacts.

Lemma lit_String (a : ascii) (s : string) : lit (String a s) = N_of_ascii a :: lit s.
Proof. reflexivity. Qed.

(** Reading the digits of [d] after a positive value [p]. *)
Lemma decimalFrom_of_uint_acc (d : Decimal.uint) (p : positive) :
  decimalFrom (Npos p) (lit (NilEmpty.string_of_uint d))
  = Some (Npos (Pos.of_uint_acc d p)).
Proof.
  revert p. induction d as [|d IH|d IH|d IH|d IH|d IH|d IH|d IH|d IH|d IH|d IH];
    intros p; cbn [NilEmpty.string_of_uint Pos.of_uint_acc]; [reflexivity|..];
    rewrite lit_String; cbn [decimalFrom];
    change (digitValue (N_of_ascii _)) with (Some 0%N) ||
    change (digitValue (N_of_ascii _)) with (Some 1%N) ||
    change (digitValue (N_of_ascii _)) with (Some 2%N) ||
    change (digitValue (N_of_ascii _)) with (Some 3%N) ||
    change (digitValue (N_of_ascii _)) with (Some 4%N) ||
    change (digitValue (N_of_ascii _)) with (Some 5%N) ||
    change (digitValue (N_of_ascii _)) with (Some 6%N) ||
    change (digitValue (N_of_ascii _)) with (Some 7%N) ||
    change (digitValue (N_of_ascii _)) with (Some 8%N) ||
    change (digitValue (N_of_ascii _)) with (Some 9%N);
    cbv iota beta;
    match goal with
    | |- decimalFrom ?a _ = Some (Npos (Pos.of_uint_acc _ ?q)) =>
        replace a with (Npos q) by lia
    end; apply IH.
Qed.

Lemma decimalFrom_of_uint (d : Decimal.uint) :
  decimalFrom 0 (lit (NilEmpty.string_of_uint d)) = Some (Pos.of_uint d).
Proof.
  induction d as [|d IH|d IH|d IH|d IH|d IH|d IH|d IH|d IH|d IH|d IH];
    cbn [NilEmpty.string_of_uint Pos.of_uint]; [reflexivity|..];
    rewrite lit_String; cbn [decimalFrom];
    [exact IH | apply decimalFrom_of_uint_acc ..].
Qed.

(** The digits printed for a number denote that number. *)
Lemma decimalValue_ofNumber (n : N) : decimalValue (ofNumber n) = Some n.
Proof.
  unfold ofNumber, NilZero.string_of_uint.
  rewrite <- (DecimalN.Unsigned.of_to n) at 2. unfold N.of_uint.
  destruct (N.to_uint n) as [|d|d|d|d|d|d|d|d|d|d]; [reflexivity|..];
    match goal with
    | |- decimalValue (lit (NilEmpty.string_of_uint ?u)) = _ =>
        rewrite <- (decimalFrom_of_uint u)
    end; reflexivity.
Qed.

(** They carry no superfluous leading zero. *)
Lemma canonicalDecimal_ofNumber (n : N) : canonicalDecimal (ofNumber n).
Proof.
  unfold canonicalDecimal, ofNumber, NilZero.string_of_uint.
  pose proof (DecimalN.Unsigned.to_of (N.to_uint n)) as Hnorm.
  rewrite DecimalN.Unsigned.of_to in Hnorm.
  destruct (N.to_uint n) as [|d|d|d|d|d|d|d|d|d|d] eqn:Hd;
    [now left | | right; eexists; eexists; split; [reflexivity | discriminate] ..].
  left. unfold Decimal.unorm in Hnorm. cbn [Decimal.nzhead] in Hnorm.
  destruct (Decimal.nzhead d) eqn:Hhead; try discriminate.
  - injection Hnorm as Hnil. subst d. reflexivity.
  - exfalso. injection Hnorm as Hnorm. subst.
    exact (DecimalFacts.nzhead_nonzero _ _ Hhead).
Qed.

End DecimalFacts.

(** ** The pipeline *)

Section PipelineFacts.

Import GenAI Pipeline Runs.

Context {S : Type} (mock : Mock S).

#[local] Instance runWith_eq_itree {R : Type} :
  Proper (eq_itree eq ==> eq ==> eq_itree eq) (@runWith S R mock).
Proof.
  intros t t' Ht w w' <-. unfold runWith. rewrite Ht. reflexivity.
Qed.

#[local] Instance runWith_eutt {R : Type} :
  Proper (eutt eq ==> eq ==> eutt eq) (@runWith S R mock).
Proof.
  intros t t' Ht w w' <-. unfold runWith. rewrite Ht. reflexivity.
Qed.

Lemma runWith_ret {R : Type} (r : R) (w : World S) :
  runWith mock (Ret r) w ≈ Ret (w, r).
Proof. unfold runWith. rewrite interp_state_ret. reflexivity. Qed.

Lemma runWith_perform {X R : Type} (e : pipelineE X) (k : X -> itree pipelineE R)
    (w : World S) :
  runWith mock (perform e k) w
  ≈ runWith mock (k (snd (record mock e w))) (fst (record mock e w)).
Proof.
  unfold runWith, perform.
  rewrite interp_state_bind, interp_state_trigger.
  unfold handler. rewrite bind_ret_l. reflexivity.
Qed.

Lemma runWith_await {X R : Type} (e : pipelineE (Error + X)) (k : X -> Promise R)
    (w : World S) :
  runWith mock (await e k) w
  ≈ match snd (record mock e w) with
    | inl err => Ret (fst (record mock e w), inl err)
    | inr x => runWith mock (k x) (fst (record mock e w))
    end.
Proof.
  unfold runWith, await.
  rewrite interp_state_bind, interp_state_trigger.
  unfold handler. rewrite bind_ret_l.
  destruct (snd (record mock e w)); [|reflexivity].
  rewrite interp_state_ret. reflexivity.
Qed.

Lemma runWith_bind_ret {X R : Type} (t : itree pipelineE X)
    (k : X -> itree pipelineE R) (w w' : World S) (x : X) :
  runWith mock t w ≈ Ret (w', x) ->
  runWith mock (ITree.bind t k) w ≈ runWith mock (k x) w'.
Proof.
  intros Ht. unfold runWith in *.
  rewrite interp_state_bind, Ht, bind_ret_l. reflexivity.
Qed.

Lemma bind_perform {X Y R : Type} (e : pipelineE X) (k : X -> itree pipelineE Y)
    (k' : Y -> itree pipelineE R) :
  ITree.bind (perform e k) k' ≅ perform e (fun x => ITree.bind (k x) k').
Proof. unfold perform. rewrite bind_bind. reflexivity. Qed.

Lemma runWith_tau {R : Type} (t : itree pipelineE R) (w : World S) :
  runWith mock (Tau t) w ≈ runWith mock t w.
Proof. unfold runWith. rewrite interp_state_tau, tau_eutt. reflexivity. Qed.

(** The loop over the images logs each file name and pushes one
    reference per image, in order. *)
Lemma runWith_pushReferences (imgs : list ImageFile)
    (acc : list VideoGenerationReferenceImage) (s : S) (tr : list Call) :
  runWith mock (pushReferences imgs acc) (s, tr)
  ≈ Ret ((s, tr ++ imageLogs imgs), acc ++ List.map toReference imgs).
Proof.
  revert acc tr. induction imgs as [|img imgs IH]; intros acc tr.
  - cbn [pushReferences imageLogs List.map]. rewrite runWith_ret, !app_nil_r.
    reflexivity.
  - cbn [pushReferences]. rewrite runWith_perform. cbn [record answer callOf fst snd].
    rewrite IH. cbn [imageLogs List.map]. rewrite <- !app_assoc. reflexivity.
Qed.

(** One turn of the loop on a handle that is not complete and whose
    re-query is answered. *)
Lemma runWith_pollLoop_turn (op refreshed : GenerateVideosOperation)
    (s s1 : S) (tr : list Call) :
  isDone op = false ->
  getVideosOperation mock op (elapse mock 10000 s) = (s1, inr refreshed) ->
  runWith mock (pollLoop op) (s, tr)
  ≈ runWith mock (pollLoop refreshed) (s1, tr ++ pollCalls [op]).
Proof.
  intros Hdone Hquery. unfold pollLoop.
  rewrite unfold_iter. unfold pollBody at 1. rewrite Hdone.
  rewrite !bind_perform, runWith_perform.
  cbn [record answer callOf fst snd].
  rewrite bind_perform, runWith_perform.
  cbn [record answer callOf fst snd].
  rewrite bind_perform, runWith_perform.
  cbn [record answer callOf fst snd].
  rewrite Hquery. cbn [fst snd].
  rewrite bind_ret_l, runWith_tau.
  cbn [pollCalls flat_map]. rewrite <- !app_assoc. reflexivity.
Qed.

(** The loop leaves with the completed handle once the service has
    completed the operation, having re-queried each handle in turn. *)
Lemma runWith_pollLoop (op final : GenerateVideosOperation) (s s' : S)
    (handles : list GenerateVideosOperation) :
  Completes mock op s handles final s' ->
  forall tr, runWith mock (pollLoop op) (s, tr)
             ≈ Ret ((s', tr ++ pollCalls handles), inr final).
Proof.
  induction 1 as [op s Hdone | op refreshed final s s1 s' handles Hdone Hquery _ IH];
    intros tr.
  - unfold pollLoop. rewrite unfold_iter. unfold pollBody at 1.
    rewrite Hdone, bind_ret_l, runWith_ret.
    cbn [pollCalls flat_map]. rewrite app_nil_r. reflexivity.
  - rewrite (@runWith_pollLoop_turn op refreshed s s1 tr Hdone Hquery), IH.
    cbn [pollCalls flat_map]. rewrite <- !app_assoc. reflexivity.
Qed.

Variable API_KEY : jsstring.
Variable decodeURIComponent : jsstring -> Error + jsstring.

Abbreviation generateVideo := (Pipeline.generateVideo API_KEY decodeURIComponent).
Abbreviation deliver := (Pipeline.deliver API_KEY decodeURIComponent).

(** From the call to the end of the loop: the request is submitted once
    and the handles are re-queried in turn. *)
Lemma runWith_generateVideo_polled (params : GenerateVideoParams)
    (s s1 s' : S) (op final : GenerateVideosOperation)
    (handles : list GenerateVideosOperation) :
  generateVideos mock (submission params) s = (s1, inr op) ->
  Completes mock op s1 handles final s' ->
  runWith mock (generateVideo params) (s, [])
  ≈ runWith mock (deliver final) (s', submitCalls params op ++ pollCalls handles).
Proof.
  intros Hsubmit Hpolls. unfold Pipeline.generateVideo.
  rewrite runWith_perform. cbn [record answer callOf fst snd app].
  rewrite runWith_perform. cbn [record answer callOf fst snd app].
  rewrite (@runWith_bind_ret _ _ _ _ _ _ _
             (runWith_pushReferences (productImages params) [] s _)).
  cbn [app]. fold (submission params).
  rewrite runWith_perform. cbn [record answer callOf fst snd].
  rewrite runWith_await. cbn [record answer callOf fst snd].
  rewrite Hsubmit. cbn [fst snd].
  rewrite runWith_perform. cbn [record answer callOf fst snd].
  unfold andThen.
  rewrite (@runWith_bind_ret _ _ _ _ _ _ _ (runWith_pollLoop _ _ _ _ _ Hpolls _)).
  unfold submitCalls. cbn [app]. rewrite <- !app_assoc. reflexivity.
Qed.

(** A completed operation whose response lists no video. *)
Lemma runWith_deliver_no_videos (final : GenerateVideosOperation)
    (resp : GenerateVideosResponse) (w : World S) :
  response final = Some resp ->
  generatedVideos resp = None \/ generatedVideos resp = Some [] ->
  runWith mock (deliver final) w
  ≈ Ret (w, inl (mkError (lit "No videos were generated."))).
Proof.
  intros Hresp Hvideos. unfold Pipeline.deliver. rewrite Hresp.
  destruct Hvideos as [-> | ->]; unfold throw; apply runWith_ret.
Qed.

(** A completed operation whose first descriptor has a URI that decodes:
    the asset is fetched with the key appended. *)
Lemma runWith_deliver_fetch (final : GenerateVideosOperation)
    (resp : GenerateVideosResponse) (first : GeneratedVideo)
    (others : list GeneratedVideo) (descriptor : Video) (u url : jsstring)
    (s : S) (tr : list Call) :
  response final = Some resp ->
  generatedVideos resp = Some (first :: others) ->
  video first = Some descriptor ->
  uri descriptor = Some u -> u <> [] ->
  decodeURIComponent u = inr url ->
  runWith mock (deliver final) (s, tr)
  ≈ match snd (fetch mock (url ++ lit "&key=" ++ API_KEY) s) with
    | inl err =>
        Ret ((fst (fetch mock (url ++ lit "&key=" ++ API_KEY) s),
              tr ++ [Logged (LogFetching url);
                     Fetched (url ++ lit "&key=" ++ API_KEY)]), inl err)
    | inr res =>
        runWith mock
          (if negb (ok res) then
             throw (lit "Failed to fetch video: " ++ ofNumber (status res)
                      ++ lit " " ++ statusText res)
           else
             await (ResBlob res) (fun videoBlob =>
             perform (CreateObjectURL videoBlob) (fun objectUrl =>
             resolve (mkResult objectUrl videoBlob url descriptor))))
          (fst (fetch mock (url ++ lit "&key=" ++ API_KEY) s),
           tr ++ [Logged (LogFetching url);
                  Fetched (url ++ lit "&key=" ++ API_KEY)])
    end.
Proof.
  intros Hresp Hvideos Hvideo Huri Hnonempty Hdecode.
  unfold Pipeline.deliver. rewrite Hresp, Hvideos, Hvideo, Huri.
  destruct u as [|c u]; [congruence|]. rewrite Hdecode.
  rewrite runWith_perform. cbn [record answer callOf fst snd].
  rewrite runWith_await. cbn [record answer callOf fst snd].
  rewrite <- !app_assoc. cbn [app]. reflexivity.
Qed.

Lemma serviceCalls_app (tr tr' : list Call) :
  serviceCalls (tr ++ tr') = serviceCalls tr ++ serviceCalls tr'.
Proof. apply filter_app. Qed.

Lemma serviceCalls_imageLogs (imgs : list ImageFile) :
  serviceCalls (imageLogs imgs) = [].
Proof. induction imgs as [|img imgs IH]; [reflexivity | exact IH]. Qed.

Lemma serviceCalls_submitCalls (params : GenerateVideoParams)
    (op : GenerateVideosOperation) :
  serviceCalls (submitCalls params op) = [Submitted (submission params)].
Proof.
  unfold submitCalls. rewrite !serviceCalls_app, serviceCalls_imageLogs.
  reflexivity.
Qed.

Lemma serviceCalls_pollCalls (handles : list GenerateVideosOperation) :
  serviceCalls (pollCalls handles) =
  List.flat_map (fun h => [Waited 10000; Polled h]) handles.
Proof.
  induction handles as [|h handles IH]; [reflexivity|].
  cbn [pollCalls flat_map]. rewrite serviceCalls_app. fold (pollCalls handles).
  rewrite IH. reflexivity.
Qed.

Lemma filter_kind_imageLogs (kind : Call -> bool) (imgs : list ImageFile) :
  (forall entry, kind (Logged entry) = false) ->
  List.filter kind (imageLogs imgs) = [].
Proof.
  intros Hkind. induction imgs as [|img imgs IH]; [reflexivity|].
  cbn [imageLogs List.map List.filter]. rewrite Hkind. exact IH.
Qed.

Lemma polls_of_submitCalls (params : GenerateVideoParams)
    (op : GenerateVideosOperation) :
  List.filter isPoll (submitCalls params op) = [].
Proof.
  unfold submitCalls. rewrite !filter_app, filter_kind_imageLogs; reflexivity.
Qed.

Lemma fetches_of_submitCalls (params : GenerateVideoParams)
    (op : GenerateVideosOperation) :
  List.filter isFetch (submitCalls params op) = [].
Proof.
  unfold submitCalls. rewrite !filter_app, filter_kind_imageLogs; reflexivity.
Qed.

Lemma polls_of_pollCalls (handles : list GenerateVideosOperation) :
  List.filter isPoll (pollCalls handles) = List.map Polled handles.
Proof.
  induction handles as [|h handles IH]; [reflexivity|].
  cbn [pollCalls flat_map]. rewrite filter_app. fold (pollCalls handles).
  rewrite IH. reflexivity.
Qed.

Lemma fetches_of_pollCalls (handles : list GenerateVideosOperation) :
  List.filter isFetch (pollCalls handles) = [].
Proof.
  induction handles as [|h handles IH]; [reflexivity|].
  cbn [pollCalls flat_map]. rewrite filter_app. fold (pollCalls handles).
  rewrite IH. reflexivity.
Qed.

End PipelineFacts.

Section PipelineClaims.

Import GenAI Pipeline Runs.

Context {S : Type} (mock : Mock S).
Variable API_KEY : jsstring.
Variable decodeURIComponent : jsstring -> Error + jsstring.

Abbreviation generateVideo := (Pipeline.generateVideo API_KEY decodeURIComponent).

(** C4: when the submission answers with a handle whose completion flag
    is unset, the first re-query with an incomplete handle and the second
    with a complete one that carries one descriptor with a URI (which
    decodes and is fetched with success), the function waits ten seconds
    and re-queries exactly twice, the second time on the handle the first
    re-query returned, then fetches the asset and resolves to a result
    holding the decoded URI and the descriptor. *)
Theorem two_polls_then_result
    (params : GenerateVideoParams) (s0 s1 s2 s3 s4 s5 s6 : S)
    (op0 op1 op2 : GenerateVideosOperation) (descriptor : Video)
    (u url objectUrl : jsstring) (res : FetchResponse) (body : Blob)
    (Hsubmit : generateVideos mock (submission params) s0 = (s1, inr op0))
    (Hpending0 : isDone op0 = false)
    (Hquery1 : getVideosOperation mock op0 (elapse mock 10000 s1) = (s2, inr op1))
    (Hpending1 : isDone op1 = false)
    (Hquery2 : getVideosOperation mock op1 (elapse mock 10000 s2) = (s3, inr op2))
    (Hdone2 : isDone op2 = true)
    (Hresponse : response op2 =
                 Some (mkResponse (Some [mkGeneratedVideo (Some descriptor)])))
    (Huri : uri descriptor = Some u) (Hnonempty : u <> [])
    (Hdecode : decodeURIComponent u = inr url)
    (Hfetch : fetch mock (url ++ lit "&key=" ++ API_KEY) s3 = (s4, inr res))
    (Hok : ok res = true)
    (Hbody : resBlob mock res s4 = (s5, inr body))
    (Hobject : createObjectURL mock body s5 = (s6, objectUrl)) :
  exists trace,
    runWith mock (generateVideo params) (s0, [])
    ≈ Ret ((s6, trace), inr (mkResult objectUrl body url descriptor))
    /\ serviceCalls trace =
       [Submitted (submission params);
        Waited 10000; Polled op0;
        Waited 10000; Polled op1;
        Fetched (url ++ lit "&key=" ++ API_KEY);
        BlobRead res; ObjectURLCreated body]
    /\ List.filter isPoll trace = [Polled op0; Polled op1].
Proof.
  assert (Hpolls : Completes mock op0 s1 [op0; op1] op2 s3).
  { eapply Completes_later; [exact Hpending0 | exact Hquery1 |].
    eapply Completes_later; [exact Hpending1 | exact Hquery2 |].
    apply Completes_now, Hdone2. }
  eexists. split; [|split].
  - rewrite (@runWith_generateVideo_polled S mock API_KEY decodeURIComponent
               params s0 s1 s3 op0 op2 [op0; op1] Hsubmit Hpolls).
    rewrite (@runWith_deliver_fetch S mock API_KEY decodeURIComponent op2 _ _ _
               descriptor u url s3 _ Hresponse eq_refl eq_refl Huri Hnonempty
               Hdecode).
    rewrite Hfetch. cbn [fst snd]. rewrite Hok. cbn [negb].
    rewrite runWith_await. cbn [record answer callOf fst snd].
    rewrite Hbody. cbn [fst snd].
    rewrite runWith_perform. cbn [record answer callOf fst snd].
    rewrite Hobject. cbn [fst snd]. unfold resolve.
    rewrite runWith_ret. reflexivity.
  - rewrite !serviceCalls_app, serviceCalls_submitCalls, serviceCalls_pollCalls.
    reflexivity.
  - rewrite !filter_app, polls_of_submitCalls, polls_of_pollCalls. reflexivity.
Qed.

(** C5: when the operation completes with a response whose list of
    generated videos is absent or empty, the function rejects with the
    error "No videos were generated." and has fetched nothing. *)
Theorem empty_result_rejects_without_fetch
    (params : GenerateVideoParams) (s s1 s' : S)
    (op final : GenerateVideosOperation)
    (handles : list GenerateVideosOperation) (resp : GenerateVideosResponse)
    (Hsubmit : generateVideos mock (submission params) s = (s1, inr op))
    (Hpolls : Completes mock op s1 handles final s')
    (Hresponse : response final = Some resp)
    (Hvideos : generatedVideos resp = None \/ generatedVideos resp = Some []) :
  exists trace,
    runWith mock (generateVideo params) (s, [])
    ≈ Ret ((s', trace), inl (mkError (lit "No videos were generated.")))
    /\ List.filter isFetch trace = [].
Proof.
  eexists. split.
  - rewrite (@runWith_generateVideo_polled S mock API_KEY decodeURIComponent
               params s s1 s' op final handles Hsubmit Hpolls).
    apply (@runWith_deliver_no_videos S mock API_KEY decodeURIComponent final resp
             _ Hresponse Hvideos).
  - rewrite filter_app, fetches_of_submitCalls, fetches_of_pollCalls.
    reflexivity.
Qed.

(** C6: when submission and polling succeed, the first descriptor has a
    URI (which decodes) and the transport answers the fetch with a
    non-success status, the function rejects with the error
    "Failed to fetch video: <digits> <statusText>", where <digits> is the
    status code in decimal: digits that denote the status code, without a
    superfluous leading zero. *)
Theorem failed_fetch_rejects_with_status
    (params : GenerateVideoParams) (s s1 s2 s3 : S)
    (op final : GenerateVideosOperation)
    (handles : list GenerateVideosOperation) (resp : GenerateVideosResponse)
    (first : GeneratedVideo) (others : list GeneratedVideo)
    (descriptor : Video) (u url : jsstring) (res : FetchResponse)
    (Hsubmit : generateVideos mock (submission params) s = (s1, inr op))
    (Hpolls : Completes mock op s1 handles final s2)
    (Hresponse : response final = Some resp)
    (Hvideos : generatedVideos resp = Some (first :: others))
    (Hvideo : video first = Some descriptor)
    (Huri : uri descriptor = Some u) (Hnonempty : u <> [])
    (Hdecode : decodeURIComponent u = inr url)
    (Hfetch : fetch mock (url ++ lit "&key=" ++ API_KEY) s2 = (s3, inr res))
    (Hfailed : ok res = false) :
  exists trace digits,
    runWith mock (generateVideo params) (s, [])
    ≈ Ret ((s3, trace),
           inl (mkError (lit "Failed to fetch video: " ++ digits
                           ++ lit " " ++ statusText res)))
    /\ decimalValue digits = Some (status res)
    /\ canonicalDecimal digits
    /\ List.filter isFetch trace = [Fetched (url ++ lit "&key=" ++ API_KEY)].
Proof.
  eexists. exists (ofNumber (status res)).
  split; [|split; [apply decimalValue_ofNumber|split; [apply canonicalDecimal_ofNumber|]]].
  - rewrite (@runWith_generateVideo_polled S mock API_KEY decodeURIComponent
               params s s1 s2 op final handles Hsubmit Hpolls).
    rewrite (@runWith_deliver_fetch S mock API_KEY decodeURIComponent final
               resp first others descriptor u url s2 _ Hresponse Hvideos Hvideo
               Huri Hnonempty Hdecode).
    rewrite Hfetch. cbn [fst snd]. rewrite Hfailed. cbn [negb]. unfold throw.
    rewrite runWith_ret. reflexivity.
  - rewrite !filter_app, fetches_of_submitCalls, fetches_of_pollCalls.
    reflexivity.
Qed.

End PipelineClaims.

(** The scripted service, answering "running" then "finished". *)
Lemma two_polls_then_result_witness :
  exists trace,
    Pipeline.runWith (Scripted.service Scripted.found)
      (Pipeline.generateVideo Scripted.key Scripted.decode standParams)
      ([Scripted.running; Scripted.finished], [])
    ≈ Ret (([], trace),
           inr (Pipeline.mkResult (lit "blob:clip") Scripted.clipBytes
                  (lit "https://videos.example/clip.mp4?alt=media")
                  Scripted.clip))
    /\ Pipeline.serviceCalls trace =
       [Pipeline.Submitted (Runs.submission standParams);
        Pipeline.Waited 10000; Pipeline.Polled Scripted.submitted;
        Pipeline.Waited 10000; Pipeline.Polled Scripted.running;
        Pipeline.Fetched
          (lit "https://videos.example/clip.mp4?alt=media&key=test-key");
        Pipeline.BlobRead Scripted.found;
        Pipeline.ObjectURLCreated Scripted.clipBytes]
    /\ List.filter Pipeline.isPoll trace =
       [Pipeline.Polled Scripted.submitted; Pipeline.Polled Scripted.running].
Proof.
  apply (@two_polls_then_result _ (Scripted.service Scripted.found)
           Scripted.key Scripted.decode standParams
           [Scripted.running; Scripted.finished]
           [Scripted.running; Scripted.finished] [Scripted.finished] [] [] [] []
           Scripted.submitted Scripted.running Scripted.finished Scripted.clip
           (lit "https://videos.example/clip.mp4?alt=media")
           (lit "https://videos.example/clip.mp4?alt=media")
           (lit "blob:clip") Scripted.found Scripted.clipBytes);
    try reflexivity.
  discriminate.
Defined.

Lemma empty_result_rejects_without_fetch_witness :
  exists trace,
    Pipeline.runWith (Scripted.service Scripted.found)
      (Pipeline.generateVideo Scripted.key Scripted.decode standParams)
      ([Scripted.finishedEmpty], [])
    ≈ Ret (([], trace), inl (mkError (lit "No videos were generated.")))
    /\ List.filter Pipeline.isFetch trace = [].
Proof.
  apply (@empty_result_rejects_without_fetch _ (Scripted.service Scripted.found)
           Scripted.key Scripted.decode standParams
           [Scripted.finishedEmpty] [Scripted.finishedEmpty] []
           Scripted.submitted Scripted.finishedEmpty [Scripted.submitted]
           (GenAI.mkResponse (Some []))).
  - reflexivity.
  - eapply Runs.Completes_later; [reflexivity | reflexivity |].
    apply Runs.Completes_now. reflexivity.
  - reflexivity.
  - right. reflexivity.
Defined.

Lemma failed_fetch_rejects_with_status_witness :
  exists trace digits,
    Pipeline.runWith (Scripted.service Scripted.forbidden)
      (Pipeline.generateVideo Scripted.key Scripted.decode standParams)
      ([Scripted.finished], [])
    ≈ Ret (([], trace),
           inl (mkError (lit "Failed to fetch video: " ++ digits
                           ++ lit " " ++ lit "Forbidden")))
    /\ decimalValue digits = Some 403%N
    /\ canonicalDecimal digits
    /\ List.filter Pipeline.isFetch trace =
       [Pipeline.Fetched
          (lit "https://videos.example/clip.mp4?alt=media&key=test-key")].
Proof.
  apply (@failed_fetch_rejects_with_status _ (Scripted.service Scripted.forbidden)
           Scripted.key Scripted.decode standParams
           [Scripted.finished] [Scripted.finished] [] []
           Scripted.submitted Scripted.finished [Scripted.submitted]
           (GenAI.mkResponse (Some [GenAI.mkGeneratedVideo (Some Scripted.clip)]))
           (GenAI.mkGeneratedVideo (Some Scripted.clip)) [] Scripted.clip
           (lit "https://videos.example/clip.mp4?alt=media")
           (lit "https://videos.example/clip.mp4?alt=media")
           Scripted.forbidden); try reflexivity.
  - eapply Runs.Completes_later; [reflexivity | reflexivity |].
    apply Runs.Completes_now. reflexivity.
  - discriminate.
Defined.

(* ===================================================================== *)
(** * Further properties *)
(* ===================================================================== *)

(** ** Every way [generateVideo] settles *)

Section PipelineOutcomes.

Import GenAI Pipeline Runs MoreRuns.

Context {S : Type} (mock : Mock S).
Variable API_KEY : jsstring.
Variable decodeURIComponent : jsstring -> Error + jsstring.

Abbreviation generateVideo := (Pipeline.generateVideo API_KEY decodeURIComponent).
Abbreviation deliver := (Pipeline.deliver API_KEY decodeURIComponent).

#[local] Instance runWith_eutt' {R : Type} :
  Proper (eutt eq ==> eq ==> eutt eq) (@runWith S R mock).
Proof.
  intros t t' Ht w w' <-. unfold runWith. rewrite Ht. reflexivity.
Qed.

(** Up to the answer of the submission. *)
Lemma runWith_generateVideo_submitted (params : GenerateVideoParams) (s : S) :
  runWith mock (generateVideo params) (s, [])
  ≈ match snd (generateVideos mock (submission params) s) with
    | inl e =>
        Ret ((fst (generateVideos mock (submission params) s),
              [Logged (LogStarting params);
               Logged (LogPrompt (constructPrompt params))]
                ++ imageLogs (productImages params)
                ++ [Logged (LogSubmitting (submission params));
                    Submitted (submission params)]), inl e)
    | inr op =>
        runWith mock (andThen (pollLoop op) deliver)
          (fst (generateVideos mock (submission params) s), submitCalls params op)
    end.
Proof.
  unfold Pipeline.generateVideo.
  rewrite runWith_perform. cbn [record answer callOf fst snd app].
  rewrite runWith_perform. cbn [record answer callOf fst snd app].
  rewrite (@runWith_bind_ret S mock _ _ _ _ _ _ _
             (runWith_pushReferences mock (productImages params) [] s _)).
  cbn [app]. fold (submission params).
  rewrite runWith_perform. cbn [record answer callOf fst snd].
  rewrite runWith_await. cbn [record answer callOf fst snd].
  destruct (generateVideos mock (submission params) s) as [s1 [e | op]];
    cbn [fst snd].
  - rewrite <- !app_assoc. reflexivity.
  - rewrite runWith_perform. cbn [record answer callOf fst snd].
    unfold submitCalls. cbn [app]. rewrite <- !app_assoc. reflexivity.
Qed.

Lemma runWith_andThen_rejected {X R : Type} (p : Promise X) (k : X -> Promise R)
    (w w' : World S) (e : Error) :
  runWith mock p w ≈ Ret (w', inl e) ->
  runWith mock (andThen p k) w ≈ Ret (w', inl e).
Proof.
  intros Hp. unfold andThen.
  rewrite (@runWith_bind_ret S mock _ _ _ _ _ _ _ Hp). apply runWith_ret.
Qed.

Lemma runWith_andThen_resolved {X R : Type} (p : Promise X) (k : X -> Promise R)
    (w w' : World S) (x : X) :
  runWith mock p w ≈ Ret (w', inr x) ->
  runWith mock (andThen p k) w ≈ runWith mock (k x) w'.
Proof.
  intros Hp. unfold andThen.
  rewrite (@runWith_bind_ret S mock _ _ _ _ _ _ _ Hp). reflexivity.
Qed.

(** The loop leaves with the error of a rejected re-query. *)
Lemma runWith_pollLoop_rejects (op : GenerateVideosOperation) (s s' : S)
    (handles : list GenerateVideosOperation) (e : Error) :
  PollRejects mock op s handles e s' ->
  forall tr, runWith mock (pollLoop op) (s, tr)
             ≈ Ret ((s', tr ++ pollCalls handles), inl e).
Proof.
  induction 1 as [op s s' e Hdone Hquery
                 | op refreshed s s1 s' handles e Hdone Hquery _ IH]; intros tr.
  - unfold pollLoop. rewrite unfold_iter. unfold pollBody at 1. rewrite Hdone.
    rewrite !bind_perform, runWith_perform. cbn [record answer callOf fst snd].
    rewrite bind_perform, runWith_perform. cbn [record answer callOf fst snd].
    rewrite bind_perform, runWith_perform. cbn [record answer callOf fst snd].
    rewrite Hquery. cbn [fst snd]. rewrite bind_ret_l, runWith_ret.
    cbn [pollCalls flat_map]. rewrite <- !app_assoc. reflexivity.
  - rewrite (@runWith_pollLoop_turn S mock op refreshed s s1 tr Hdone Hquery), IH.
    cbn [pollCalls flat_map]. rewrite <- !app_assoc. reflexivity.
Qed.

Lemma serviceCalls_run (params : GenerateVideoParams)
    (op : GenerateVideosOperation) (handles : list GenerateVideosOperation)
    (last : list Call) :
  serviceCalls (submitCalls params op ++ pollCalls handles ++ last) =
  serviceTrace params handles (serviceCalls last).
Proof.
  rewrite !serviceCalls_app, serviceCalls_submitCalls, serviceCalls_pollCalls.
  reflexivity.
Qed.

(** X1: A rejected submission rejects the call with the same error; nothing
    is awaited, re-queried or fetched after it. *)
Theorem rejected_submission_is_passed_on
    (params : GenerateVideoParams) (s s' : S) (e : Error)
    (Hsubmit : generateVideos mock (submission params) s = (s', inl e)) :
  exists trace,
    runWith mock (generateVideo params) (s, []) ≈ Ret ((s', trace), inl e)
    /\ serviceCalls trace = [Submitted (submission params)].
Proof.
  eexists. split.
  - rewrite runWith_generateVideo_submitted, Hsubmit. cbn [fst snd]. reflexivity.
  - rewrite !serviceCalls_app, serviceCalls_imageLogs. reflexivity.
Qed.

(** X2: A rejected re-query rejects the call with the same error, after one
    wait and one re-query per handle; nothing is fetched. *)
Theorem rejected_requery_is_passed_on
    (params : GenerateVideoParams) (s s1 s' : S) (op : GenerateVideosOperation)
    (handles : list GenerateVideosOperation) (e : Error)
    (Hsubmit : generateVideos mock (submission params) s = (s1, inr op))
    (Hpolls : PollRejects mock op s1 handles e s') :
  exists trace,
    runWith mock (generateVideo params) (s, []) ≈ Ret ((s', trace), inl e)
    /\ serviceCalls trace = serviceTrace params handles [].
Proof.
  eexists. split.
  - rewrite runWith_generateVideo_submitted, Hsubmit. cbn [fst snd].
    apply runWith_andThen_rejected.
    apply (runWith_pollLoop_rejects _ _ _ _ _ Hpolls).
  - rewrite <- (app_nil_r (pollCalls handles)).
    apply (serviceCalls_run params op handles []).
Qed.

(** The run up to the end of a loop that completes. *)
Lemma runWith_generateVideo_completed (params : GenerateVideoParams)
    (s s1 s' : S) (op final : GenerateVideosOperation)
    (handles : list GenerateVideosOperation) :
  generateVideos mock (submission params) s = (s1, inr op) ->
  Completes mock op s1 handles final s' ->
  runWith mock (generateVideo params) (s, [])
  ≈ runWith mock (deliver final) (s', submitCalls params op ++ pollCalls handles).
Proof.
  intros Hsubmit Hpolls.
  rewrite runWith_generateVideo_submitted, Hsubmit. cbn [fst snd].
  apply runWith_andThen_resolved.
  apply (runWith_pollLoop mock _ _ _ _ _ Hpolls).
Qed.

(** X3: A completed operation without a response: the operation is printed
    with [console.error] and the call rejects with "No videos generated.";
    nothing is fetched. *)
Theorem missing_response_rejects
    (params : GenerateVideoParams) (s s1 s' : S)
    (op final : GenerateVideosOperation)
    (handles : list GenerateVideosOperation)
    (Hsubmit : generateVideos mock (submission params) s = (s1, inr op))
    (Hpolls : Completes mock op s1 handles final s')
    (Hresponse : response final = None) :
  exists trace,
    runWith mock (generateVideo params) (s, [])
    ≈ Ret ((s', trace), inl (mkError (lit "No videos generated.")))
    /\ serviceCalls trace = serviceTrace params handles []
    /\ last trace (Logged LogGenerating) = LoggedError (LogOperationFailed final).
Proof.
  eexists. split; [|split].
  - rewrite (runWith_generateVideo_completed params s s1 s' op final handles
               Hsubmit Hpolls).
    unfold Pipeline.deliver. rewrite Hresponse.
    rewrite runWith_perform. cbn [record answer callOf fst snd].
    unfold throw. rewrite runWith_ret. reflexivity.
  - rewrite <- app_assoc, serviceCalls_run. reflexivity.
  - apply last_last.
Qed.

(** X4: A completed operation whose first descriptor has no video object, no
    URI or the empty URI: the call rejects with "Generated video is missing
    a URI." and nothing is fetched, whatever the later descriptors hold. *)
Theorem missing_uri_rejects
    (params : GenerateVideoParams) (s s1 s' : S)
    (op final : GenerateVideosOperation)
    (handles : list GenerateVideosOperation) (resp : GenerateVideosResponse)
    (first : GeneratedVideo) (others : list GeneratedVideo)
    (Hsubmit : generateVideos mock (submission params) s = (s1, inr op))
    (Hpolls : Completes mock op s1 handles final s')
    (Hresponse : response final = Some resp)
    (Hvideos : generatedVideos resp = Some (first :: others))
    (Hlacks : lacksUri first) :
  exists trace,
    runWith mock (generateVideo params) (s, [])
    ≈ Ret ((s', trace), inl (mkError (lit "Generated video is missing a URI.")))
    /\ serviceCalls trace = serviceTrace params handles [].
Proof.
  eexists. split.
  - rewrite (runWith_generateVideo_completed params s s1 s' op final handles
               Hsubmit Hpolls).
    unfold Pipeline.deliver. rewrite Hresponse, Hvideos.
    unfold lacksUri in Hlacks.
    destruct (video first) as [videoObject|]; [|apply runWith_ret].
    destruct (uri videoObject) as [u|]; [|apply runWith_ret].
    subst u. apply runWith_ret.
  - rewrite <- (app_nil_r (pollCalls handles)).
    apply (serviceCalls_run params op handles []).
Qed.

(** X5: A URI that [decodeURIComponent] refuses: the call rejects with the
    error thrown by the decoder and nothing is fetched. *)
Theorem malformed_uri_rejects
    (params : GenerateVideoParams) (s s1 s' : S)
    (op final : GenerateVideosOperation)
    (handles : list GenerateVideosOperation) (resp : GenerateVideosResponse)
    (first : GeneratedVideo) (others : list GeneratedVideo)
    (descriptor : Video) (u : jsstring) (e : Error)
    (Hsubmit : generateVideos mock (submission params) s = (s1, inr op))
    (Hpolls : Completes mock op s1 handles final s')
    (Hresponse : response final = Some resp)
    (Hvideos : generatedVideos resp = Some (first :: others))
    (Hvideo : video first = Some descriptor)
    (Huri : uri descriptor = Some u) (Hnonempty : u <> [])
    (Hdecode : decodeURIComponent u = inl e) :
  exists trace,
    runWith mock (generateVideo params) (s, []) ≈ Ret ((s', trace), inl e)
    /\ serviceCalls trace = serviceTrace params handles [].
Proof.
  eexists. split.
  - rewrite (runWith_generateVideo_completed params s s1 s' op final handles
               Hsubmit Hpolls).
    unfold Pipeline.deliver. rewrite Hresponse, Hvideos, Hvideo, Huri.
    destruct u as [|c u]; [congruence|]. rewrite Hdecode. apply runWith_ret.
  - rewrite <- (app_nil_r (pollCalls handles)).
    apply (serviceCalls_run params op handles []).
Qed.

(** The run up to the answer of the transport. *)
Lemma runWith_generateVideo_fetched
    (params : GenerateVideoParams) (s s1 s2 : S)
    (op final : GenerateVideosOperation)
    (handles : list GenerateVideosOperation) (resp : GenerateVideosResponse)
    (first : GeneratedVideo) (others : list GeneratedVideo)
    (descriptor : Video) (u url : jsstring) :
  generateVideos mock (submission params) s = (s1, inr op) ->
  Completes mock op s1 handles final s2 ->
  response final = Some resp ->
  generatedVideos resp = Some (first :: others) ->
  video first = Some descriptor ->
  uri descriptor = Some u -> u <> [] ->
  decodeURIComponent u = inr url ->
  runWith mock (generateVideo params) (s, [])
  ≈ runWith mock
      (await (Fetch (url ++ lit "&key=" ++ API_KEY)) (fun res =>
       if negb (ok res) then
         throw (lit "Failed to fetch video: " ++ ofNumber (status res)
                  ++ lit " " ++ statusText res)
       else
         await (ResBlob res) (fun videoBlob =>
         perform (CreateObjectURL videoBlob) (fun objectUrl =>
         resolve (mkResult objectUrl videoBlob url descriptor)))))
      (s2, submitCalls params op ++ pollCalls handles ++ [Logged (LogFetching url)]).
Proof.
  intros Hsubmit Hpolls Hresponse Hvideos Hvideo Huri Hnonempty Hdecode.
  rewrite (runWith_generateVideo_completed params s s1 s2 op final handles
             Hsubmit Hpolls).
  unfold Pipeline.deliver. rewrite Hresponse, Hvideos, Hvideo, Huri.
  destruct u as [|c u]; [congruence|]. rewrite Hdecode.
  rewrite runWith_perform. cbn [record answer callOf fst snd].
  rewrite <- app_assoc. reflexivity.
Qed.

(** X6: A fetch that is rejected by the transport (no response at all)
    rejects the call with the same error; no body is read. *)
Theorem rejected_fetch_is_passed_on
    (params : GenerateVideoParams) (s s1 s2 s3 : S)
    (op final : GenerateVideosOperation)
    (handles : list GenerateVideosOperation) (resp : GenerateVideosResponse)
    (first : GeneratedVideo) (others : list GeneratedVideo)
    (descriptor : Video) (u url : jsstring) (e : Error)
    (Hsubmit : generateVideos mock (submission params) s = (s1, inr op))
    (Hpolls : Completes mock op s1 handles final s2)
    (Hresponse : response final = Some resp)
    (Hvideos : generatedVideos resp = Some (first :: others))
    (Hvideo : video first = Some descriptor)
    (Huri : uri descriptor = Some u) (Hnonempty : u <> [])
    (Hdecode : decodeURIComponent u = inr url)
    (Hfetch : fetch mock (url ++ lit "&key=" ++ API_KEY) s2 = (s3, inl e)) :
  exists trace,
    runWith mock (generateVideo params) (s, []) ≈ Ret ((s3, trace), inl e)
    /\ serviceCalls trace =
       serviceTrace params handles [Fetched (url ++ lit "&key=" ++ API_KEY)].
Proof.
  eexists. split.
  - rewrite (runWith_generateVideo_fetched params s s1 s2 op final handles resp
               first others descriptor u url Hsubmit Hpolls Hresponse Hvideos
               Hvideo Huri Hnonempty Hdecode).
    rewrite runWith_await. cbn [record answer callOf fst snd].
    rewrite Hfetch. cbn [fst snd]. reflexivity.
  - rewrite <- !app_assoc, serviceCalls_run. reflexivity.
Qed.

(** X7: A successful response whose body cannot be read rejects the call
    with the error of the read; no object URL is created. *)
Theorem rejected_body_is_passed_on
    (params : GenerateVideoParams) (s s1 s2 s3 s4 : S)
    (op final : GenerateVideosOperation)
    (handles : list GenerateVideosOperation) (resp : GenerateVideosResponse)
    (first : GeneratedVideo) (others : list GeneratedVideo)
    (descriptor : Video) (u url : jsstring) (res : FetchResponse) (e : Error)
    (Hsubmit : generateVideos mock (submission params) s = (s1, inr op))
    (Hpolls : Completes mock op s1 handles final s2)
    (Hresponse : response final = Some resp)
    (Hvideos : generatedVideos resp = Some (first :: others))
    (Hvideo : video first = Some descriptor)
    (Huri : uri descriptor = Some u) (Hnonempty : u <> [])
    (Hdecode : decodeURIComponent u = inr url)
    (Hfetch : fetch mock (url ++ lit "&key=" ++ API_KEY) s2 = (s3, inr res))
    (Hok : ok res = true)
    (Hbody : resBlob mock res s3 = (s4, inl e)) :
  exists trace,
    runWith mock (generateVideo params) (s, []) ≈ Ret ((s4, trace), inl e)
    /\ serviceCalls trace =
       serviceTrace params handles
         [Fetched (url ++ lit "&key=" ++ API_KEY); BlobRead res].
Proof.
  eexists. split.
  - rewrite (runWith_generateVideo_fetched params s s1 s2 op final handles resp
               first others descriptor u url Hsubmit Hpolls Hresponse Hvideos
               Hvideo Huri Hnonempty Hdecode).
    rewrite runWith_await. cbn [record answer callOf fst snd].
    rewrite Hfetch. cbn [fst snd]. rewrite Hok. cbn [negb].
    rewrite runWith_await. cbn [record answer callOf fst snd].
    rewrite Hbody. cbn [fst snd]. reflexivity.
  - rewrite <- !app_assoc, serviceCalls_run. reflexivity.
Qed.

(** The run of a call that succeeds. *)
Lemma runWith_generateVideo_resolves
    (params : GenerateVideoParams) (s s1 s2 s3 s4 s5 : S)
    (op final : GenerateVideosOperation)
    (handles : list GenerateVideosOperation) (resp : GenerateVideosResponse)
    (first : GeneratedVideo) (others : list GeneratedVideo)
    (descriptor : Video) (u url objectUrl : jsstring)
    (res : FetchResponse) (body : Blob) :
  generateVideos mock (submission params) s = (s1, inr op) ->
  Completes mock op s1 handles final s2 ->
  response final = Some resp ->
  generatedVideos resp = Some (first :: others) ->
  video first = Some descriptor ->
  uri descriptor = Some u -> u <> [] ->
  decodeURIComponent u = inr url ->
  fetch mock (url ++ lit "&key=" ++ API_KEY) s2 = (s3, inr res) ->
  ok res = true ->
  resBlob mock res s3 = (s4, inr body) ->
  createObjectURL mock body s4 = (s5, objectUrl) ->
  runWith mock (generateVideo params) (s, [])
  ≈ Ret ((s5,
          submitCalls params op ++ pollCalls handles
            ++ [Logged (LogFetching url);
                Fetched (url ++ lit "&key=" ++ API_KEY);
                BlobRead res; ObjectURLCreated body]),
         inr (mkResult objectUrl body url descriptor)).
Proof.
  intros Hsubmit Hpolls Hresponse Hvideos Hvideo Huri Hnonempty Hdecode Hfetch
    Hok Hbody Hobject.
  rewrite (runWith_generateVideo_fetched params s s1 s2 op final handles resp
             first others descriptor u url Hsubmit Hpolls Hresponse Hvideos
             Hvideo Huri Hnonempty Hdecode).
  rewrite runWith_await. cbn [record answer callOf fst snd].
  rewrite Hfetch. cbn [fst snd]. rewrite Hok. cbn [negb].
  rewrite runWith_await. cbn [record answer callOf fst snd].
  rewrite Hbody. cbn [fst snd].
  rewrite runWith_perform. cbn [record answer callOf fst snd].
  rewrite Hobject. cbn [fst snd]. unfold resolve. rewrite runWith_ret.
  rewrite <- !app_assoc. reflexivity.
Qed.

(** X8: Whatever the number of re-queries before completion, a call that
    succeeds makes one wait and one re-query per handle, one fetch of the
    decoded URI of the first descriptor with "&key=" and the key appended,
    one read of the body and one object URL, and resolves to that URL, the
    body, the decoded URI and the first descriptor; later descriptors are
    not looked at. *)
Theorem resolves_after_any_number_of_polls
    (params : GenerateVideoParams) (s s1 s2 s3 s4 s5 : S)
    (op final : GenerateVideosOperation)
    (handles : list GenerateVideosOperation) (resp : GenerateVideosResponse)
    (first : GeneratedVideo) (others : list GeneratedVideo)
    (descriptor : Video) (u url objectUrl : jsstring)
    (res : FetchResponse) (body : Blob)
    (Hsubmit : generateVideos mock (submission params) s = (s1, inr op))
    (Hpolls : Completes mock op s1 handles final s2)
    (Hresponse : response final = Some resp)
    (Hvideos : generatedVideos resp = Some (first :: others))
    (Hvideo : video first = Some descriptor)
    (Huri : uri descriptor = Some u) (Hnonempty : u <> [])
    (Hdecode : decodeURIComponent u = inr url)
    (Hfetch : fetch mock (url ++ lit "&key=" ++ API_KEY) s2 = (s3, inr res))
    (Hok : ok res = true)
    (Hbody : resBlob mock res s3 = (s4, inr body))
    (Hobject : createObjectURL mock body s4 = (s5, objectUrl)) :
  exists trace,
    runWith mock (generateVideo params) (s, [])
    ≈ Ret ((s5, trace), inr (mkResult objectUrl body url descriptor))
    /\ serviceCalls trace =
       serviceTrace params handles
         [Fetched (url ++ lit "&key=" ++ API_KEY); BlobRead res;
          ObjectURLCreated body].
Proof.
  eexists. split.
  - exact (runWith_generateVideo_resolves params s s1 s2 s3 s4 s5 op final
             handles resp first others descriptor u url objectUrl res body
             Hsubmit Hpolls Hresponse Hvideos Hvideo Huri Hnonempty Hdecode
             Hfetch Hok Hbody Hobject).
  - rewrite serviceCalls_run. reflexivity.
Qed.

End PipelineOutcomes.

(** ** The poll loop, inverted *)

Section PipelineInversion.

Import GenAI Pipeline Runs MoreRuns.

Context {S : Type} (mock : Mock S).

#[local] Instance runWith_eutt'' {R : Type} :
  Proper (eutt eq ==> eq ==> eutt eq) (@runWith S R mock).
Proof.
  intros t t' Ht w w' <-. unfold runWith. rewrite Ht. reflexivity.
Qed.

Lemma runWith_pollBody (op : GenerateVideosOperation) (w : World S) :
  runWith mock (pollBody op) w ≈ Ret (pollTurn mock op w).
Proof.
  unfold pollBody, pollTurn. destruct (isDone op).
  - apply runWith_ret.
  - rewrite runWith_perform. cbn [record answer callOf fst snd].
    rewrite runWith_perform. cbn [record answer callOf fst snd].
    rewrite runWith_perform. cbn [record answer callOf fst snd].
    destruct (getVideosOperation mock op (elapse mock 10000 (fst w))) as [s' [e|r]];
      cbn [fst snd]; rewrite runWith_ret; cbn [pollCalls flat_map];
      rewrite <- !app_assoc; reflexivity.
Qed.

Lemma pollCalls_app (hs hs' : list GenerateVideosOperation) :
  pollCalls (hs ++ hs') = pollCalls hs ++ pollCalls hs'.
Proof. unfold pollCalls. apply flat_map_app. Qed.

(** A leaf of the run of the loop has a cause. *)
Lemma Leaf_pollLoop (op : GenerateVideosOperation) (s : S) (tr : list Call)
    (x : World S * (Error + GenerateVideosOperation)) :
  Leaf x (runWith mock (pollLoop op) (s, tr)) -> loopCause mock op s tr x.
Proof.
  unfold runWith, pollLoop.
  rewrite (interp_state_iter'_eutt (handler mock) pollBody
             (fun op w => Ret (pollTurn mock op w)) (fun i s => runWith_pollBody i s)).
  unfold Basics.iter, MonadIter_stateT0, Basics.iter, MonadIter_itree.
  apply (Leaf_iter_inv _ _
           (fun wi : World S * GenerateVideosOperation =>
              exists handles,
                snd (fst wi) = tr ++ pollCalls handles
                /\ (forall hs final s',
                      Completes mock (snd wi) (fst (fst wi)) hs final s' ->
                      Completes mock op s (handles ++ hs) final s')
                /\ (forall hs e s',
                      PollRejects mock (snd wi) (fst (fst wi)) hs e s' ->
                      PollRejects mock op s (handles ++ hs) e s'))
           (loopCause mock op s tr)).
  - intros [[s0 tr0] cur] r (handles & Htrace & Hdone & Hfail) Hleaf.
    cbn [fst snd] in *. cbn in Hleaf. rewrite bind_ret_l in Hleaf.
    apply Leaf_Ret_inv in Hleaf. subst r. unfold pollTurn. cbn [fst snd].
    destruct (isDone cur) eqn:Hcur; cbn [fst snd sum_pred].
    + exists handles. cbn [fst snd]. split; [exact Htrace|].
      rewrite <- (app_nil_r handles). apply Hdone. now constructor.
    + destruct (getVideosOperation mock cur (elapse mock 10000 s0))
        as [s1 [e | refreshed]] eqn:Hquery; cbn [fst snd sum_pred].
      * exists (handles ++ [cur]). cbn [fst snd]. split.
        -- rewrite pollCalls_app, Htrace, app_assoc. reflexivity.
        -- apply Hfail. now constructor.
      * exists (handles ++ [cur]). cbn [fst snd]. split; [|split].
        -- rewrite pollCalls_app, Htrace, app_assoc. reflexivity.
        -- intros hs final s' H. rewrite <- app_assoc. apply Hdone.
           cbn [app]. econstructor; eassumption.
        -- intros hs e s' H. rewrite <- app_assoc. apply Hfail.
           cbn [app]. econstructor; eassumption.
  - exists []. cbn [fst snd]. split; [now rewrite app_nil_r|]. split; auto.
Qed.

(** X9: The poll loop leaves in two ways only: with a handle, when the
    service has completed the operation after the re-queries made, or with
    an error, when a re-query was rejected.  In both cases the calls made
    are one wait, one log line and one re-query per handle. *)
Theorem poll_loop_leaves_for_a_cause
    (op : GenerateVideosOperation) (s : S) (tr : list Call)
    (x : World S * (Error + GenerateVideosOperation))
    (Hleft : runWith mock (pollLoop op) (s, tr) ≈ Ret x) :
  loopCause mock op s tr x.
Proof.
  apply Leaf_pollLoop. rewrite Hleft. apply Leaf_Ret.
Qed.

(** While a service stays busy, no handle completes and no re-query is
    rejected. *)
Lemma busy_never_completes (busy : S -> Prop) (Hbusy : StaysBusy mock busy)
    (op final : GenerateVideosOperation) (s s' : S)
    (handles : list GenerateVideosOperation) :
  Completes mock op s handles final s' -> busy s -> isDone op = false -> False.
Proof.
  induction 1 as [op s Hdone | op refreshed final s s1 s' handles _ Hquery _ IH];
    intros Hs Hop; [congruence|].
  destruct (Hbusy op s Hs) as (s2 & r & Hq & Hr & Hs2).
  rewrite Hquery in Hq. injection Hq as <- <-. now apply IH.
Qed.

Lemma busy_never_rejects (busy : S -> Prop) (Hbusy : StaysBusy mock busy)
    (op : GenerateVideosOperation) (s s' : S)
    (handles : list GenerateVideosOperation) (e : Error) :
  PollRejects mock op s handles e s' -> busy s -> False.
Proof.
  induction 1 as [op s s' e _ Hquery
                 | op refreshed s s1 s' handles e _ Hquery _ IH]; intros Hs;
    destruct (Hbusy op s Hs) as (s2 & r & Hq & Hr & Hs2);
    rewrite Hquery in Hq; [discriminate|].
  injection Hq as <- <-. now apply IH.
Qed.

End PipelineInversion.

Section PipelineConverse.

Import GenAI Pipeline Runs MoreRuns.

Context {S : Type} (mock : Mock S).
Variable API_KEY : jsstring.
Variable decodeURIComponent : jsstring -> Error + jsstring.

Abbreviation generateVideo := (Pipeline.generateVideo API_KEY decodeURIComponent).
Abbreviation deliver := (Pipeline.deliver API_KEY decodeURIComponent).

#[local] Instance runWith_eutt''' {R : Type} :
  Proper (eutt eq ==> eq ==> eutt eq) (@runWith S R mock).
Proof.
  intros t t' Ht w w' <-. unfold runWith. rewrite Ht. reflexivity.
Qed.

(** A settled call whose submission was answered has left the loop for
    a cause and, unless a re-query was rejected, settled in what follows
    the loop. *)
Lemma Leaf_generateVideo_submitted (params : GenerateVideoParams) (s s1 : S)
    (op : GenerateVideosOperation) (x : World S * (Error + VideoResult)) :
  generateVideos mock (submission params) s = (s1, inr op) ->
  Leaf x (runWith mock (generateVideo params) (s, [])) ->
  exists y,
    loopCause mock op s1 (submitCalls params op) y
    /\ match snd y with
       | inl e => x = (fst y, inl e)
       | inr final => Leaf x (runWith mock (deliver final) (fst y))
       end.
Proof.
  intros Hsubmit Hleaf.
  rewrite (runWith_generateVideo_submitted mock API_KEY decodeURIComponent params s),
    Hsubmit in Hleaf.
  cbn [fst snd] in Hleaf. unfold andThen, runWith in Hleaf.
  rewrite interp_state_bind in Hleaf.
  apply Leaf_bind_inv in Hleaf. destruct Hleaf as (y & Hloop & Hrest).
  exists y. split; [apply Leaf_pollLoop, Hloop|].
  destruct y as [w2 [e | final]]; cbn [fst snd] in *.
  - rewrite interp_state_ret in Hrest. now apply Leaf_Ret_inv in Hrest.
  - exact Hrest.
Qed.

(** X10: A service that stays busy keeps the call waiting for ever: when the
    submission is answered with an incomplete handle and every re-query is
    answered with an incomplete handle, the call never settles, neither
    with a result nor with an error. *)
Theorem busy_service_never_settles
    (busy : S -> Prop) (params : GenerateVideoParams) (s s1 : S)
    (op : GenerateVideosOperation) (x : World S * (Error + VideoResult))
    (Hbusy : StaysBusy mock busy)
    (Hsubmit : generateVideos mock (submission params) s = (s1, inr op))
    (Hpending : isDone op = false)
    (Hstate : busy s1) :
  ~ (runWith mock (generateVideo params) (s, []) ≈ Ret x).
Proof.
  intros Hsettled.
  assert (Hleaf : Leaf x (runWith mock (generateVideo params) (s, [])))
    by (rewrite Hsettled; apply Leaf_Ret).
  destruct (Leaf_generateVideo_submitted params s s1 op x Hsubmit Hleaf)
    as ([w2 [e | final]] & (handles & _ & Hcause) & _); cbn [fst snd] in Hcause.
  - exact (busy_never_rejects mock busy Hbusy op s1 _ handles e Hcause Hstate).
  - exact (busy_never_completes mock busy Hbusy op final s1 _ handles Hcause
             Hstate Hpending).
Qed.

(** What follows the loop resolves only for a response whose first
    descriptor has a URI that decodes, is fetched with success and read. *)
Lemma Leaf_deliver_resolved (final : GenerateVideosOperation) (s2 : S)
    (tr : list Call) (w' : World S) (result : VideoResult) :
  Leaf (w', inr result) (runWith mock (deliver final) (s2, tr)) ->
  exists resp first others u s3 res s4,
    response final = Some resp
    /\ generatedVideos resp = Some (first :: others)
    /\ video first = Some (result_video result)
    /\ uri (result_video result) = Some u /\ u <> []
    /\ decodeURIComponent u = inr (result_uri result)
    /\ fetch mock (result_uri result ++ lit "&key=" ++ API_KEY) s2 = (s3, inr res)
    /\ ok res = true
    /\ resBlob mock res s3 = (s4, inr (blob result))
    /\ createObjectURL mock (blob result) s4 = (fst w', objectUrl result).
Proof.
  unfold Pipeline.deliver. intros Hleaf.
  destruct (response final) as [resp|] eqn:Hresponse.
  2:{ rewrite runWith_perform in Hleaf. unfold throw in Hleaf.
      rewrite runWith_ret in Hleaf. apply Leaf_Ret_inv in Hleaf. discriminate. }
  destruct (generatedVideos resp) as [[|first others]|] eqn:Hvideos;
    try (unfold throw in Hleaf; rewrite runWith_ret in Hleaf;
         apply Leaf_Ret_inv in Hleaf; discriminate).
  destruct (video first) as [descriptor|] eqn:Hvideo;
    try (unfold throw in Hleaf; rewrite runWith_ret in Hleaf;
         apply Leaf_Ret_inv in Hleaf; discriminate).
  destruct (uri descriptor) as [[|c u]|] eqn:Huri;
    try (unfold throw in Hleaf; rewrite runWith_ret in Hleaf;
         apply Leaf_Ret_inv in Hleaf; discriminate).
  destruct (decodeURIComponent (c :: u)) as [e | url] eqn:Hdecode.
  { rewrite runWith_ret in Hleaf. apply Leaf_Ret_inv in Hleaf. discriminate. }
  rewrite runWith_perform in Hleaf. cbn [record answer callOf fst snd] in Hleaf.
  rewrite runWith_await in Hleaf. cbn [record answer callOf fst snd] in Hleaf.
  destruct (fetch mock (url ++ lit "&key=" ++ API_KEY) s2) as [s3 [e | res]]
    eqn:Hfetch; cbn [fst snd] in Hleaf.
  { apply Leaf_Ret_inv in Hleaf. discriminate. }
  destruct (ok res) eqn:Hok; cbn [negb] in Hleaf.
  2:{ unfold throw in Hleaf. rewrite runWith_ret in Hleaf.
      apply Leaf_Ret_inv in Hleaf. discriminate. }
  rewrite runWith_await in Hleaf. cbn [record answer callOf fst snd] in Hleaf.
  destruct (resBlob mock res s3) as [s4 [e | body]] eqn:Hbody;
    cbn [fst snd] in Hleaf.
  { apply Leaf_Ret_inv in Hleaf. discriminate. }
  rewrite runWith_perform in Hleaf. cbn [record answer callOf fst snd] in Hleaf.
  unfold resolve in Hleaf. rewrite runWith_ret in Hleaf.
  apply Leaf_Ret_inv in Hleaf. injection Hleaf as -> ->.
  cbn [result_video result_uri blob objectUrl fst].
  exists resp, first, others, (c :: u), s3, res, s4.
  repeat split; try assumption; try discriminate.
  destruct (createObjectURL mock body s4); reflexivity.
Qed.

(** X11: A call resolves only if the submission was answered, the service
    completed the operation after the re-queries made, the completed handle
    has a response whose first descriptor is the returned one, its URI is
    non-empty and decodes to the returned URI, and the fetch of that URI
    with the key, the read of the body and the object URL succeeded. *)
Theorem resolved_call_went_through_completion
    (params : GenerateVideoParams) (s : S) (w' : World S) (result : VideoResult)
    (Hresolved : runWith mock (generateVideo params) (s, [])
                 ≈ Ret (w', inr result)) :
  exists s1 op handles final s2 resp first others u s3 res s4,
    generateVideos mock (submission params) s = (s1, inr op)
    /\ Completes mock op s1 handles final s2
    /\ response final = Some resp
    /\ generatedVideos resp = Some (first :: others)
    /\ video first = Some (result_video result)
    /\ uri (result_video result) = Some u /\ u <> []
    /\ decodeURIComponent u = inr (result_uri result)
    /\ fetch mock (result_uri result ++ lit "&key=" ++ API_KEY) s2 = (s3, inr res)
    /\ ok res = true
    /\ resBlob mock res s3 = (s4, inr (blob result))
    /\ createObjectURL mock (blob result) s4 = (fst w', objectUrl result).
Proof.
  assert (Hleaf : Leaf (w', inr result) (runWith mock (generateVideo params) (s, [])))
    by (rewrite Hresolved; apply Leaf_Ret).
  destruct (generateVideos mock (submission params) s) as [s1 [e | op]] eqn:Hsubmit.
  { rewrite (runWith_generateVideo_submitted mock API_KEY decodeURIComponent
               params s), Hsubmit in Hleaf.
    cbn [fst snd] in Hleaf. apply Leaf_Ret_inv in Hleaf. discriminate. }
  destruct (Leaf_generateVideo_submitted params s s1 op _ Hsubmit Hleaf)
    as ([[s2 tr] [e | final]] & (handles & _ & Hcause) & Hrest);
    cbn [fst snd] in *; [discriminate|].
  destruct (Leaf_deliver_resolved final s2 tr w' result Hrest)
    as (resp & first & others & u & s3 & res & s4 & H).
  exists s1, op, handles, final, s2, resp, first, others, u, s3, res, s4.
  split; [reflexivity|]. split; [exact Hcause | exact H].
Qed.

End PipelineConverse.

(** ** Trimming and splitting *)

Section StringFacts.

Lemma trimStart_allWhiteSpace (s : jsstring) : allWhiteSpace s -> trimStart s = [].
Proof.
  induction 1 as [|c s Hc _ IH]; [reflexivity|]. cbn [trimStart]. now rewrite Hc.
Qed.

Lemma trimStart_nil_inv (s : jsstring) : trimStart s = [] -> allWhiteSpace s.
Proof.
  induction s as [|c s IH]; intros H; [constructor|]. cbn [trimStart] in H.
  destruct (isWhiteSpace c) eqn:Hc; [|discriminate].
  constructor; [exact Hc | exact (IH H)].
Qed.

(** [trimStart] removes a prefix of white space. *)
Lemma trimStart_prefix (s : jsstring) :
  exists w, s = w ++ trimStart s /\ allWhiteSpace w.
Proof.
  induction s as [|c s (w & Hs & Hw)].
  - exists []. split; [reflexivity | constructor].
  - cbn [trimStart]. destruct (isWhiteSpace c) eqn:Hc.
    + exists (c :: w). split; [cbn; now f_equal | now constructor].
    + exists []. split; [reflexivity | constructor].
Qed.

Lemma allWhiteSpace_rev (s : jsstring) : allWhiteSpace s -> allWhiteSpace (rev s).
Proof. unfold allWhiteSpace. apply Forall_rev. Qed.

Lemma allWhiteSpace_app (s t : jsstring) :
  allWhiteSpace (s ++ t) <-> allWhiteSpace s /\ allWhiteSpace t.
Proof. unfold allWhiteSpace. apply Forall_app. Qed.

(** [trimEnd] removes a suffix of white space. *)
Lemma trimEnd_suffix (s : jsstring) :
  exists w, s = trimEnd s ++ w /\ allWhiteSpace w.
Proof.
  unfold trimEnd. destruct (trimStart_prefix (rev s)) as (w & Hs & Hw).
  exists (rev w). split; [|now apply allWhiteSpace_rev].
  rewrite <- rev_app_distr, <- Hs. now rewrite rev_involutive.
Qed.

(** A string trims to nothing exactly when it is white space only. *)
Lemma trim_nil_iff (s : jsstring) : trim s = [] <-> allWhiteSpace s.
Proof.
  unfold trim. split.
  - intros H. destruct (trimStart_prefix s) as (w & Hs & Hw).
    destruct (trimEnd_suffix (trimStart s)) as (w' & Hs' & Hw').
    rewrite H in Hs'. cbn [app] in Hs'. rewrite Hs.
    apply allWhiteSpace_app. split; [exact Hw | now rewrite Hs'].
  - intros H. now rewrite (trimStart_allWhiteSpace _ H).
Qed.

Lemma trimStart_fixed (s : jsstring) :
  match s with [] => True | c :: _ => isWhiteSpace c = false end ->
  trimStart s = s.
Proof. destruct s as [|c s]; [reflexivity|]. cbn [trimStart]. now intros ->. Qed.

Lemma trimStart_idempotent (s : jsstring) : trimStart (trimStart s) = trimStart s.
Proof. apply trimStart_fixed, trimStart_head. Qed.

Lemma trimEnd_idempotent (s : jsstring) : trimEnd (trimEnd s) = trimEnd s.
Proof. unfold trimEnd. now rewrite rev_involutive, trimStart_idempotent. Qed.

(** Trimming the end keeps a start that needs no trimming. *)
Lemma trimStart_trimEnd (s : jsstring) :
  trimStart s = s -> trimStart (trimEnd s) = trimEnd s.
Proof.
  intros Hfixed. apply trimStart_fixed.
  destruct (trimEnd_suffix s) as (w & Hs & Hw).
  destruct (trimEnd s) as [|c rest]; [exact I|].
  pose proof (trimStart_head s) as Hhead. rewrite Hfixed, Hs in Hhead.
  exact Hhead.
Qed.

Lemma trim_idempotent (s : jsstring) : trim (trim s) = trim s.
Proof.
  unfold trim.
  rewrite (trimStart_trimEnd (trimStart s) (trimStart_idempotent s)).
  apply trimEnd_idempotent.
Qed.

(** Trimming keeps a part of the string. *)
Lemma trim_middle (s : jsstring) :
  exists w w', s = w ++ trim s ++ w' /\ allWhiteSpace w /\ allWhiteSpace w'.
Proof.
  destruct (trimStart_prefix s) as (w & Hs & Hw).
  destruct (trimEnd_suffix (trimStart s)) as (w' & Hs' & Hw').
  exists w, w'. unfold trim. now rewrite <- Hs', <- Hs.
Qed.

Lemma In_trim (c : code_unit) (s : jsstring) : In c (trim s) -> In c s.
Proof.
  intros H. destruct (trim_middle s) as (w & w' & Hs & _ & _). rewrite Hs.
  apply in_or_app. right. apply in_or_app. now left.
Qed.

(** The pieces of a split hold the units of the string, the separator
    excepted. *)
Lemma split_pieces (sep : code_unit) (s : jsstring) :
  Forall (fun piece => forall c, In c piece -> In c s /\ c <> sep) (split sep s).
Proof.
  induction s as [|c s IH]; cbn [split].
  - constructor; [intros c []|constructor].
  - destruct (N.eqb_spec c sep) as [->|Hne].
    + constructor; [intros c []|].
      eapply Forall_impl; [|exact IH]. intros piece H c Hc.
      destruct (H c Hc). split; [now right | assumption].
    + destruct (split sep s) as [|piece pieces]; inversion IH as [|? ? Hp Hps]; subst.
      * constructor; [|constructor]. intros d [<-|[]]. split; [now left | exact Hne].
      * constructor.
        -- intros d [<-|Hd]; [split; [now left | exact Hne]|].
           destruct (Hp d Hd). split; [now right | assumption].
        -- eapply Forall_impl; [|exact Hps]. intros q H d Hd.
           destruct (H d Hd). split; [now right | assumption].
Qed.

Lemma split_without_separator (sep : code_unit) (piece : jsstring) :
  ~ In sep piece -> split sep piece = [piece].
Proof.
  induction piece as [|c piece IH]; intros Hnot; [reflexivity|]. cbn [split].
  destruct (N.eqb_spec c sep) as [->|Hne]; [exfalso; apply Hnot; now left|].
  rewrite IH; [reflexivity|]. intros H. apply Hnot. now right.
Qed.

Lemma split_at_separator (sep : code_unit) (piece rest : jsstring) :
  ~ In sep piece ->
  split sep (piece ++ sep :: rest) = piece :: split sep rest.
Proof.
  induction piece as [|c piece IH]; intros Hnot; cbn [app split].
  - now rewrite N.eqb_refl.
  - destruct (N.eqb_spec c sep) as [->|Hne]; [exfalso; apply Hnot; now left|].
    rewrite IH; [reflexivity|]. intros H. apply Hnot. now right.
Qed.

(** Splitting what was joined gives the pieces back, when there is a
    piece and no piece holds the separator. *)
Lemma split_join (sep : code_unit) (pieces : list jsstring) :
  pieces <> [] -> Forall (fun piece => ~ In sep piece) pieces ->
  split sep (join [sep] pieces) = pieces.
Proof.
  induction pieces as [|piece pieces IH]; intros Hne Hall; [congruence|].
  inversion Hall as [|? ? Hpiece Hrest]; subst.
  destruct pieces as [|next pieces].
  - cbn [join]. now apply split_without_separator.
  - change (join [sep] (piece :: next :: pieces))
      with (piece ++ [sep] ++ join [sep] (next :: pieces)).
    cbn [app]. rewrite split_at_separator by assumption.
    f_equal. apply IH; [discriminate | assumption].
Qed.

Lemma normalizedLines_clean (features : jsstring) :
  Forall cleanLine (normalizedLines features).
Proof.
  unfold normalizedLines. apply Forall_forall. intros line Hin.
  apply filter_In in Hin. destruct Hin as [Hin Htruthy].
  apply in_map_iff in Hin. destruct Hin as (piece & <- & Hpiece).
  repeat split.
  - now apply truthy_true.
  - apply trim_idempotent.
  - intros HLF. apply In_trim in HLF.
    pose proof (split_pieces LF features) as Hall.
    rewrite Forall_forall in Hall. destruct (Hall piece Hpiece LF HLF). congruence.
Qed.

Lemma normalizedLines_of_clean (lines : list jsstring) :
  Forall cleanLine lines -> normalizedLines (join nl lines) = lines.
Proof.
  intros Hclean. unfold normalizedLines.
  destruct lines as [|line lines]; [reflexivity|].
  unfold nl. rewrite split_join.
  - induction Hclean as [|l ls (Hne & Htrim & _) _ IH]; [reflexivity|].
    cbn [List.map List.filter]. rewrite Htrim.
    apply truthy_true in Hne. rewrite Hne. now f_equal.
  - discriminate.
  - eapply Forall_impl; [|exact Hclean]. now intros l (_ & _ & H).
Qed.

End StringFacts.

(** ** The key-features block *)

(** X12: Each line of the key-features text in a prompt is non-empty, has no
    white space at its start or end and holds no newline: the text is
    empty or splits on newlines into such lines. *)
Theorem feature_lines_are_clean (features : jsstring) :
  featureLines features = []
  \/ Forall cleanLine (split LF (featureLines features)).
Proof.
  unfold featureLines. fold (normalizedLines features).
  pose proof (normalizedLines_clean features) as Hclean.
  destruct (normalizedLines features) as [|line lines] eqn:Hlines; [now left|].
  right. unfold nl. rewrite split_join; [exact Hclean | discriminate |].
  eapply Forall_impl; [|exact Hclean]. now intros l (_ & _ & H).
Qed.

(** X13: Normalising the key features twice is the same as normalising them
    once: text that went through a prompt comes out unchanged. *)
Theorem feature_lines_idempotent (features : jsstring) :
  featureLines (featureLines features) = featureLines features.
Proof.
  unfold featureLines at 1. fold (normalizedLines (featureLines features)).
  unfold featureLines. fold (normalizedLines features).
  now rewrite (normalizedLines_of_clean _ (normalizedLines_clean features)).
Qed.

(** X14: A key-features field that is not empty but holds white space only
    (blanks, tabs, empty lines) yields no feature line, and the prompt still
    carries the lead-in sentence, followed by three newlines. *)
Theorem blank_features_keep_the_lead_in (params : GenerateVideoParams)
    (Hnonempty : keyFeatures params <> [])
    (Hblank : allWhiteSpace (keyFeatures params)) :
  featureLines (keyFeatures params) = []
  /\ constructPrompt params =
     beforeFeatures params
       ++ lit "Showcase the following key features:" ++ nl ++ nl ++ nl
       ++ afterFeatures.
Proof.
  assert (Hlines : featureLines (keyFeatures params) = []).
  { unfold featureLines.
    replace (List.filter truthy (List.map trim (split LF (keyFeatures params))))
      with (@nil jsstring); [reflexivity|].
    symmetry. pose proof (split_pieces LF (keyFeatures params)) as Hall.
    induction Hall as [|piece pieces Hpiece _ IH]; [reflexivity|].
    cbn [List.map List.filter].
    assert (Htrim : trim piece = []).
    { apply trim_nil_iff. apply Forall_forall. intros c Hc.
      destruct (Hpiece c Hc) as [Hin _].
      unfold allWhiteSpace in Hblank. rewrite Forall_forall in Hblank. auto. }
    rewrite Htrim. exact IH. }
  split; [exact Hlines|].
  rewrite constructPrompt_blocks. unfold beforeFeatures, afterFeatures.
  apply truthy_true in Hnonempty. rewrite Hnonempty.
  unfold featuresBlock, featuresLeadIn. rewrite Hlines.
  cbn [app]. now rewrite <- !app_assoc.
Qed.

(** ** The form: gate, retry and image list *)

Section FormFacts.

Import Collector.

Lemma not_allWhiteSpace_visible (s : jsstring) :
  ~ allWhiteSpace s <-> hasVisibleUnit s.
Proof.
  unfold allWhiteSpace, hasVisibleUnit. split.
  - intros Hnot. induction s as [|c s IH]; [exfalso; apply Hnot; constructor|].
    destruct (isWhiteSpace c) eqn:Hc.
    + destruct IH as (d & Hd & Hvis).
      * intros Hall. apply Hnot. now constructor.
      * exists d. split; [now right | exact Hvis].
    + exists c. split; [now left | exact Hc].
  - intros (c & Hin & Hvis) Hall. rewrite Forall_forall in Hall.
    specialize (Hall c Hin). congruence.
Qed.

Lemma form_eta (st : FormState) :
  mkForm (productName st) (keyFeatures st) (targetAudience st) (videoStyle st)
         (productImages st) (model st) (aspectRatio st) (resolution st)
         (isSettingsOpen st) = st.
Proof. now destruct st. Qed.

(** The index past the last image removes nothing. *)
Lemma removeAt_out_of_range (index : nat) (imgs : list ImageFile) :
  List.length imgs <= index -> removeAt index imgs = imgs.
Proof.
  intros Hle. rewrite removeAt_firstn_skipn.
  rewrite firstn_all2 by exact Hle. rewrite skipn_all2 by lia. apply app_nil_r.
Qed.

Lemma removeAt_appended (img : ImageFile) (imgs : list ImageFile) :
  removeAt (List.length imgs) (append img imgs) = imgs.
Proof.
  unfold append. rewrite removeAt_firstn_skipn.
  rewrite firstn_app, Nat.sub_diag, firstn_all. cbn [firstn].
  rewrite skipn_all2 by (rewrite length_app; cbn; lia).
  now rewrite !app_nil_r.
Qed.

End FormFacts.

(** X15: Submission is enabled exactly when the product name holds a code
    unit that is not white space and at least one image is uploaded. *)
Theorem submit_enabled_iff (st : Collector.FormState) :
  Collector.isSubmitDisabled st = false <->
  hasVisibleUnit (Collector.productName st) /\ Collector.productImages st <> [].
Proof.
  unfold Collector.isSubmitDisabled.
  rewrite orb_false_iff, negb_false_iff, truthy_true, trim_nil_iff,
    not_allWhiteSpace_visible.
  destruct (Collector.productImages st); cbn; intuition congruence.
Qed.

(** X16: The tooltip is rendered exactly when submission is disabled: the
    message is never empty then. *)
Theorem tooltip_rendered_iff_disabled (st : Collector.FormState) :
  tooltipRendered st = Collector.isSubmitDisabled st.
Proof.
  unfold tooltipRendered, Collector.tooltipText.
  destruct (Collector.isSubmitDisabled st); [|reflexivity].
  destruct (negb (truthy (trim (Collector.productName st))));
    destruct (List.length (Collector.productImages st) =? 0); reflexivity.
Qed.

(** Re-seeding the form with the request it would submit changes
    nothing. *)
Theorem reseed_with_own_request (st : Collector.FormState) :
  Collector.reseed (Some (Collector.handleSubmit st)) st = st.
Proof. apply form_eta. Qed.

(** X17: The retry flow: a form seeded with a request, whatever it held
    before, submits the eight current fields of that request, without
    the deprecated ones, and so the same prompt and the same request to
    the service. *)
Theorem retry_submits_the_same_request
    (v : GenerateVideoParams) (st : Collector.FormState) :
  Collector.handleSubmit (Collector.reseed (Some v) st) = currentFields v
  /\ Collector.handleSubmit (Collector.initialState (Some v)) = currentFields v
  /\ constructPrompt (currentFields v) = constructPrompt v
  /\ Runs.submission (currentFields v) = Runs.submission v.
Proof. repeat split. Qed.

(** X18: An upload followed by the removal of the new image restores the
    form. *)
Theorem upload_then_remove_restores (st : Collector.FormState) (img : ImageFile)
    (Hroom : List.length (Collector.productImages st) < 6) :
  uploadThenRemove img (List.length (Collector.productImages st)) st = Some st.
Proof.
  unfold uploadThenRemove. cbn [Collector.step].
  unfold Collector.addImageRendered.
  apply Nat.ltb_lt in Hroom. rewrite Hroom.
  cbn [Collector.step]. unfold Collector.removeRendered, Collector.setProductImages.
  cbn [Collector.productImages Collector.productName Collector.keyFeatures
       Collector.targetAudience Collector.videoStyle Collector.model
       Collector.aspectRatio Collector.resolution Collector.isSettingsOpen].
  unfold Collector.append at 1. rewrite length_app. cbn [List.length].
  replace (List.length (Collector.productImages st)
           <? List.length (Collector.productImages st) + 1) with true
    by (symmetry; apply Nat.ltb_lt; lia).
  rewrite removeAt_appended. now rewrite form_eta.
Qed.

(** X19: A request that the form hands to the pipeline, from a state it can
    reach with submission enabled, has a name that does not trim to the
    empty string and between one and six images, and the request to the
    service carries one reference per image. *)
Theorem submitted_request_is_well_formed
    (initialValues : option GenerateVideoParams)
    (actions : list Collector.Action) (st : Collector.FormState)
    (Hseed : Collector.seedOk initialValues)
    (Hactions : Forall Collector.actionOk actions)
    (Hrun : Collector.run (Collector.initialState initialValues) actions = Some st)
    (Henabled : Collector.isSubmitDisabled st = false) :
  trim (productName (Collector.handleSubmit st)) <> []
  /\ 1 <= List.length (productImages (Collector.handleSubmit st)) <= 6
  /\ List.length
       (Pipeline.referenceImages
          (Pipeline.config (Runs.submission (Collector.handleSubmit st))))
     = List.length (productImages (Collector.handleSubmit st)).
Proof.
  assert (Hcap : List.length (Collector.productImages st) <= 6).
  { eapply run_keeps_cap; [|exact Hactions | exact Hrun].
    destruct initialValues as [v|]; cbn in *; [assumption | lia]. }
  unfold Collector.isSubmitDisabled in Henabled.
  apply orb_false_iff in Henabled. destruct Henabled as [Hname Himages].
  apply negb_false_iff, truthy_true in Hname.
  apply Nat.eqb_neq in Himages.
  cbn [Collector.handleSubmit productName productImages].
  repeat split; [exact Hname | lia | exact Hcap |].
  unfold Runs.submission, Pipeline.payloadOf.
  cbn [Pipeline.config Pipeline.referenceImages productImages].
  apply length_map.
Qed.

(** ** Reading uploaded files *)

Section UploadFacts.

Import Upload.

Lemma base64_has_no_comma (payload : jsstring) :
  Forall (fun c => isBase64Unit c = true) payload -> ~ In comma payload.
Proof.
  intros Hall Hin. rewrite Forall_forall in Hall.
  specialize (Hall comma Hin). discriminate.
Qed.

Lemma lit_data_no_comma : ~ In comma (lit "data:").
Proof. cbv. intuition discriminate. Qed.

Lemma lit_base64_no_comma : ~ In comma (lit ";base64").
Proof. cbv. intuition discriminate. Qed.

Lemma dataURL_split (mime payload : jsstring) :
  ~ In comma mime -> ~ In comma payload ->
  split comma (dataURL mime payload) =
  [lit "data:" ++ mime ++ lit ";base64"; payload].
Proof.
  intros Hmime Hpayload. unfold dataURL.
  change (lit ";base64,") with (lit ";base64" ++ [comma]).
  replace (lit "data:" ++ mime ++ (lit ";base64" ++ [comma]) ++ payload)
    with ((lit "data:" ++ mime ++ lit ";base64") ++ comma :: payload)
    by (now rewrite <- !app_assoc).
  rewrite split_at_separator.
  - now rewrite split_without_separator.
  - intros Hin. apply in_app_or in Hin. destruct Hin as [Hin|Hin];
      [exact (lit_data_no_comma Hin)|].
    apply in_app_or in Hin. destruct Hin as [Hin|Hin];
      [exact (Hmime Hin) | exact (lit_base64_no_comma Hin)].
Qed.

Lemma fileToBase64_readable (img : ImageFile) :
  readable img ->
  fileToBase64 (file img) (inr (dataURL (file_type (file img)) (base64 img)))
  = inr img.
Proof.
  intros (Hne & Hunits & Hmime). unfold fileToBase64.
  rewrite dataURL_split;
    [| assumption | apply base64_has_no_comma; assumption].
  cbn [nth_error]. apply truthy_true in Hne. rewrite Hne. now destruct img.
Qed.

Lemma play_app (ss : Session) (evs evs' : list Event) :
  play ss (evs ++ evs') =
  match play ss evs with
  | Some ss' => play ss' evs'
  | None => None
  end.
Proof.
  revert ss. induction evs as [|ev evs IH]; intros ss; [reflexivity|].
  cbn [app play]. destruct (react ss ev); [apply IH | reflexivity].
Qed.

Lemma play_chooseAll (st : Collector.FormState) (pending : list File)
    (imgs : list ImageFile) :
  Collector.addImageRendered st = true ->
  play (mkSession st pending) (chooseAll imgs) =
  Some (mkSession st (pending ++ List.map file imgs)).
Proof.
  intros Htile. revert pending.
  induction imgs as [|img imgs IH]; intros pending.
  - cbn. now rewrite app_nil_r.
  - cbn [chooseAll List.map play react form reading]. rewrite Htile.
    fold (chooseAll imgs). rewrite IH. now rewrite <- app_assoc.
Qed.

Lemma play_readAll (st : Collector.FormState) (imgs : list ImageFile) :
  Forall readable imgs ->
  play (mkSession st (List.map file imgs)) (readAll imgs) =
  Some (mkSession (Collector.setProductImages (fun l => l ++ imgs) st) []).
Proof.
  intros Hall. revert st.
  induction Hall as [|img imgs Himg _ IH]; intros st.
  - cbn. unfold Collector.setProductImages. rewrite app_nil_r.
    now rewrite form_eta.
  - cbn [readAll List.map play react form reading nth_error firstn skipn app].
    unfold handleFileChange, fileToImageFile.
    rewrite (fileToBase64_readable img Himg). cbn [selected].
    fold (readAll imgs). rewrite IH. unfold Collector.setProductImages, Collector.append.
    cbn [Collector.productImages Collector.productName Collector.keyFeatures
         Collector.targetAudience Collector.videoStyle Collector.model
         Collector.aspectRatio Collector.resolution Collector.isSettingsOpen].
    now rewrite <- app_assoc.
Qed.

End UploadFacts.

(** X20: A file read into the data URL of base64 text resolves to the image
    file holding that text: the part of the URL after its comma. *)
Theorem file_read_yields_base64_payload
    (f : File) (mime payload : jsstring)
    (Hmime : ~ In Upload.comma mime)
    (Hpayload : payload <> [])
    (Hunits : Forall (fun c => Upload.isBase64Unit c = true) payload) :
  Upload.fileToImageFile f (inr (Upload.dataURL mime payload))
  = inr (mkImageFile f payload).
Proof.
  unfold Upload.fileToImageFile, Upload.fileToBase64.
  rewrite dataURL_split;
    [| assumption | apply base64_has_no_comma; assumption].
  cbn [nth_error]. apply truthy_true in Hpayload. now rewrite Hpayload.
Qed.

(** X21: A read whose result holds no comma, or nothing between its first
    comma and the next one or the end, is rejected with "Failed to read
    file as base64."; the change handler then selects no image, prints the
    error and still resets the file input. *)
Theorem file_without_payload_is_rejected
    (f : File) (later : list File) (header rest : jsstring) (mounted : bool)
    (Hheader : ~ In Upload.comma header) :
  let failure := mkError (lit "Failed to read file as base64.") in
  Upload.fileToBase64 f (inr header) = inl failure
  /\ Upload.fileToBase64 f (inr (header ++ [Upload.comma])) = inl failure
  /\ Upload.fileToBase64 f (inr (header ++ [Upload.comma; Upload.comma] ++ rest))
     = inl failure
  /\ Upload.handleFileChange (f :: later) (fun _ => inr header) mounted
     = Upload.mkOutcome None (Some failure) mounted.
Proof.
  cbn zeta. unfold Upload.handleFileChange, Upload.fileToImageFile, Upload.fileToBase64.
  rewrite (split_without_separator _ _ Hheader). cbn [nth_error].
  repeat split.
  - rewrite (split_at_separator _ _ [] Hheader). reflexivity.
  - cbn [app]. rewrite (split_at_separator _ _ _ Hheader). cbn [split].
    rewrite N.eqb_refl. reflexivity.
Qed.

(** X22: A read that fails leaves the form as it was; only the handler that
    was waiting for it is gone. *)
Theorem failed_read_leaves_form_unchanged
    (ss ss' : Upload.Session) (i : nat) (e : Error)
    (Hreact : Upload.react ss (Upload.ReadEnds i (inl e)) = Some ss') :
  Upload.form ss' = Upload.form ss
  /\ S (List.length (Upload.reading ss')) = List.length (Upload.reading ss).
Proof.
  cbn [Upload.react] in Hreact.
  destruct (nth_error (Upload.reading ss) i) as [f|] eqn:Hnth; [|discriminate].
  unfold Upload.handleFileChange, Upload.fileToImageFile, Upload.fileToBase64
    in Hreact.
  cbn [Upload.selected] in Hreact. injection Hreact as <-.
  cbn [Upload.form Upload.reading]. split; [reflexivity|].
  assert (Hlt : i < List.length (Upload.reading ss))
    by (apply nth_error_Some; congruence).
  change (match Upload.reading ss with [] => [] | _ :: l => skipn i l end)
    with (skipn (S i) (Upload.reading ss)).
  rewrite length_app, length_firstn, length_skipn. lia.
Qed.

(** X23: The bound of six images is kept by the render only: when files are
    chosen while the tile is shown and their reads end afterwards, every
    one of them is appended, whatever the length the list has reached. *)
Theorem overlapping_uploads_are_all_appended
    (st : Collector.FormState) (imgs : list ImageFile)
    (Htile : Collector.addImageRendered st = true)
    (Hreadable : Forall readable imgs) :
  exists st',
    Upload.play (Upload.mkSession st []) (chooseAll imgs ++ readAll imgs)
    = Some (Upload.mkSession st' [])
    /\ Collector.productImages st' = Collector.productImages st ++ imgs
    /\ List.length (Collector.productImages st')
       = List.length (Collector.productImages st) + List.length imgs.
Proof.
  exists (Collector.setProductImages (fun l => l ++ imgs) st).
  rewrite play_app, (play_chooseAll st [] imgs Htile). cbn [app].
  rewrite (play_readAll st imgs Hreadable).
  repeat split. cbn. apply length_app.
Qed.

(** ** The properties above on the stub service and on sample forms *)

Lemma stub_three_polls :
  Runs.Completes (Stub.service Stub.allFine) Scripted.submitted
    [Scripted.running; Scripted.running; Scripted.finished]
    [Scripted.submitted; Scripted.running; Scripted.running]
    Scripted.finished [].
Proof.
  eapply Runs.Completes_later; [reflexivity | reflexivity |].
  eapply Runs.Completes_later; [reflexivity | reflexivity |].
  eapply Runs.Completes_later; [reflexivity | reflexivity |].
  apply Runs.Completes_now. reflexivity.
Qed.

Lemma stub_one_poll (a : Stub.Answers) (final : GenAI.GenerateVideosOperation) :
  Pipeline.isDone final = true ->
  Runs.Completes (Stub.service a) Scripted.submitted [final] [Scripted.submitted]
    final [].
Proof.
  intros Hdone. eapply Runs.Completes_later; [reflexivity | reflexivity |].
  apply Runs.Completes_now. exact Hdone.
Qed.

Lemma rejected_submission_is_passed_on_witness :
  exists trace,
    Pipeline.runWith
      (Stub.service (Stub.mkAnswers (inl Stub.quotaExceeded) (inr Scripted.found)
                       (inr Scripted.clipBytes)))
      (Pipeline.generateVideo Scripted.key Scripted.decode standParams)
      ([Scripted.finished], [])
    ≈ Ret (([Scripted.finished], trace), inl Stub.quotaExceeded)
    /\ Pipeline.serviceCalls trace = [Pipeline.Submitted (Runs.submission standParams)].
Proof.
  apply (@rejected_submission_is_passed_on _
           (Stub.service (Stub.mkAnswers (inl Stub.quotaExceeded)
                            (inr Scripted.found) (inr Scripted.clipBytes)))
           Scripted.key Scripted.decode standParams
           [Scripted.finished] [Scripted.finished] Stub.quotaExceeded).
  reflexivity.
Defined.

Lemma rejected_requery_is_passed_on_witness :
  exists trace,
    Pipeline.runWith (Stub.service Stub.allFine)
      (Pipeline.generateVideo Scripted.key Scripted.decode standParams)
      ([Scripted.running], [])
    ≈ Ret (([], trace), inl (mkError (lit "operation not found")))
    /\ Pipeline.serviceCalls trace =
       MoreRuns.serviceTrace standParams [Scripted.submitted; Scripted.running] [].
Proof.
  apply (@rejected_requery_is_passed_on _ (Stub.service Stub.allFine)
           Scripted.key Scripted.decode standParams
           [Scripted.running] [Scripted.running] [] Scripted.submitted
           [Scripted.submitted; Scripted.running]
           (mkError (lit "operation not found"))).
  - reflexivity.
  - eapply MoreRuns.PollRejects_later; [reflexivity | reflexivity |].
    apply MoreRuns.PollRejects_now; reflexivity.
Defined.

Lemma missing_response_rejects_witness :
  exists trace,
    Pipeline.runWith (Stub.service Stub.allFine)
      (Pipeline.generateVideo Scripted.key Scripted.decode standParams)
      ([Stub.finishedBare], [])
    ≈ Ret (([], trace), inl (mkError (lit "No videos generated.")))
    /\ Pipeline.serviceCalls trace =
       MoreRuns.serviceTrace standParams [Scripted.submitted] []
    /\ last trace (Pipeline.Logged Pipeline.LogGenerating) =
       Pipeline.LoggedError (Pipeline.LogOperationFailed Stub.finishedBare).
Proof.
  apply (@missing_response_rejects _ (Stub.service Stub.allFine)
           Scripted.key Scripted.decode standParams
           [Stub.finishedBare] [Stub.finishedBare] [] Scripted.submitted
           Stub.finishedBare [Scripted.submitted]).
  - reflexivity.
  - apply stub_one_poll. reflexivity.
  - reflexivity.
Defined.

Lemma missing_uri_rejects_witness :
  exists trace,
    Pipeline.runWith (Stub.service Stub.allFine)
      (Pipeline.generateVideo Scripted.key Scripted.decode standParams)
      ([Stub.finishedNoUri], [])
    ≈ Ret (([], trace), inl (mkError (lit "Generated video is missing a URI.")))
    /\ Pipeline.serviceCalls trace =
       MoreRuns.serviceTrace standParams [Scripted.submitted] [].
Proof.
  apply (@missing_uri_rejects _ (Stub.service Stub.allFine)
           Scripted.key Scripted.decode standParams
           [Stub.finishedNoUri] [Stub.finishedNoUri] [] Scripted.submitted
           Stub.finishedNoUri [Scripted.submitted]
           (GenAI.mkResponse
              (Some [GenAI.mkGeneratedVideo (Some (GenAI.mkVideo None None None));
                     GenAI.mkGeneratedVideo (Some Scripted.clip)]))
           (GenAI.mkGeneratedVideo (Some (GenAI.mkVideo None None None)))
           [GenAI.mkGeneratedVideo (Some Scripted.clip)]).
  - reflexivity.
  - apply stub_one_poll. reflexivity.
  - reflexivity.
  - reflexivity.
  - exact I.
Defined.

Lemma malformed_uri_rejects_witness :
  exists trace,
    Pipeline.runWith (Stub.service Stub.allFine)
      (Pipeline.generateVideo Scripted.key Stub.refuse standParams)
      ([Scripted.finished], [])
    ≈ Ret (([], trace), inl Stub.uriMalformed)
    /\ Pipeline.serviceCalls trace =
       MoreRuns.serviceTrace standParams [Scripted.submitted] [].
Proof.
  apply (@malformed_uri_rejects _ (Stub.service Stub.allFine)
           Scripted.key Stub.refuse standParams
           [Scripted.finished] [Scripted.finished] [] Scripted.submitted
           Scripted.finished [Scripted.submitted]
           (GenAI.mkResponse (Some [GenAI.mkGeneratedVideo (Some Scripted.clip)]))
           (GenAI.mkGeneratedVideo (Some Scripted.clip)) [] Scripted.clip
           (lit "https://videos.example/clip.mp4?alt=media") Stub.uriMalformed);
    try reflexivity.
  - apply stub_one_poll. reflexivity.
  - discriminate.
Defined.

Lemma rejected_fetch_is_passed_on_witness :
  exists trace,
    Pipeline.runWith
      (Stub.service (Stub.mkAnswers (inr Scripted.submitted) (inl Stub.networkDown)
                       (inr Scripted.clipBytes)))
      (Pipeline.generateVideo Scripted.key Scripted.decode standParams)
      ([Scripted.finished], [])
    ≈ Ret (([], trace), inl Stub.networkDown)
    /\ Pipeline.serviceCalls trace =
       MoreRuns.serviceTrace standParams [Scripted.submitted]
         [Pipeline.Fetched
            (lit "https://videos.example/clip.mp4?alt=media" ++ lit "&key="
               ++ Scripted.key)].
Proof.
  apply (@rejected_fetch_is_passed_on _
           (Stub.service (Stub.mkAnswers (inr Scripted.submitted)
                            (inl Stub.networkDown) (inr Scripted.clipBytes)))
           Scripted.key Scripted.decode standParams
           [Scripted.finished] [Scripted.finished] [] [] Scripted.submitted
           Scripted.finished [Scripted.submitted]
           (GenAI.mkResponse (Some [GenAI.mkGeneratedVideo (Some Scripted.clip)]))
           (GenAI.mkGeneratedVideo (Some Scripted.clip)) [] Scripted.clip
           (lit "https://videos.example/clip.mp4?alt=media")
           (lit "https://videos.example/clip.mp4?alt=media") Stub.networkDown);
    try reflexivity.
  - apply stub_one_poll. reflexivity.
  - discriminate.
Defined.

Lemma rejected_body_is_passed_on_witness :
  exists trace,
    Pipeline.runWith
      (Stub.service (Stub.mkAnswers (inr Scripted.submitted) (inr Scripted.found)
                       (inl Stub.bodyLost)))
      (Pipeline.generateVideo Scripted.key Scripted.decode standParams)
      ([Scripted.finished], [])
    ≈ Ret (([], trace), inl Stub.bodyLost)
    /\ Pipeline.serviceCalls trace =
       MoreRuns.serviceTrace standParams [Scripted.submitted]
         [Pipeline.Fetched
            (lit "https://videos.example/clip.mp4?alt=media" ++ lit "&key="
               ++ Scripted.key);
          Pipeline.BlobRead Scripted.found].
Proof.
  apply (@rejected_body_is_passed_on _
           (Stub.service (Stub.mkAnswers (inr Scripted.submitted)
                            (inr Scripted.found) (inl Stub.bodyLost)))
           Scripted.key Scripted.decode standParams
           [Scripted.finished] [Scripted.finished] [] [] [] Scripted.submitted
           Scripted.finished [Scripted.submitted]
           (GenAI.mkResponse (Some [GenAI.mkGeneratedVideo (Some Scripted.clip)]))
           (GenAI.mkGeneratedVideo (Some Scripted.clip)) [] Scripted.clip
           (lit "https://videos.example/clip.mp4?alt=media")
           (lit "https://videos.example/clip.mp4?alt=media")
           Scripted.found Stub.bodyLost);
    try reflexivity.
  - apply stub_one_poll. reflexivity.
  - discriminate.
Defined.

Lemma resolves_after_any_number_of_polls_witness :
  exists trace,
    Pipeline.runWith (Stub.service Stub.allFine)
      (Pipeline.generateVideo Scripted.key Scripted.decode standParams)
      ([Scripted.running; Scripted.running; Scripted.finished], [])
    ≈ Ret (([], trace),
           inr (Pipeline.mkResult (lit "blob:clip") Scripted.clipBytes
                  (lit "https://videos.example/clip.mp4?alt=media")
                  Scripted.clip))
    /\ Pipeline.serviceCalls trace =
       MoreRuns.serviceTrace standParams
         [Scripted.submitted; Scripted.running; Scripted.running]
         [Pipeline.Fetched
            (lit "https://videos.example/clip.mp4?alt=media" ++ lit "&key="
               ++ Scripted.key);
          Pipeline.BlobRead Scripted.found;
          Pipeline.ObjectURLCreated Scripted.clipBytes].
Proof.
  apply (@resolves_after_any_number_of_polls _ (Stub.service Stub.allFine)
           Scripted.key Scripted.decode standParams
           [Scripted.running; Scripted.running; Scripted.finished]
           [Scripted.running; Scripted.running; Scripted.finished] [] [] [] []
           Scripted.submitted Scripted.finished
           [Scripted.submitted; Scripted.running; Scripted.running]
           (GenAI.mkResponse (Some [GenAI.mkGeneratedVideo (Some Scripted.clip)]))
           (GenAI.mkGeneratedVideo (Some Scripted.clip)) [] Scripted.clip
           (lit "https://videos.example/clip.mp4?alt=media")
           (lit "https://videos.example/clip.mp4?alt=media")
           (lit "blob:clip") Scripted.found Scripted.clipBytes);
    try reflexivity.
  - exact stub_three_polls.
  - discriminate.
Defined.

(** The run of the loop and of the whole call on the stub service. *)
Lemma stub_loop_run :
  Pipeline.runWith (Stub.service Stub.allFine) (Pipeline.pollLoop Scripted.submitted)
    ([Scripted.running; Scripted.running; Scripted.finished], [])
  ≈ Ret (([], [] ++ Runs.pollCalls
                      [Scripted.submitted; Scripted.running; Scripted.running]),
         inr Scripted.finished).
Proof. apply (runWith_pollLoop _ _ _ _ _ _ stub_three_polls). Qed.

Lemma stub_call_run :
  Pipeline.runWith (Stub.service Stub.allFine)
    (Pipeline.generateVideo Scripted.key Scripted.decode standParams)
    ([Scripted.running; Scripted.running; Scripted.finished], [])
  ≈ Ret (([],
          Runs.submitCalls standParams Scripted.submitted
            ++ Runs.pollCalls [Scripted.submitted; Scripted.running; Scripted.running]
            ++ [Pipeline.Logged
                  (Pipeline.LogFetching (lit "https://videos.example/clip.mp4?alt=media"));
                Pipeline.Fetched
                  (lit "https://videos.example/clip.mp4?alt=media" ++ lit "&key="
                     ++ Scripted.key);
                Pipeline.BlobRead Scripted.found;
                Pipeline.ObjectURLCreated Scripted.clipBytes]),
         inr (Pipeline.mkResult (lit "blob:clip") Scripted.clipBytes
                (lit "https://videos.example/clip.mp4?alt=media") Scripted.clip)).
Proof.
  apply (@runWith_generateVideo_resolves _ (Stub.service Stub.allFine)
           Scripted.key Scripted.decode standParams
           [Scripted.running; Scripted.running; Scripted.finished]
           [Scripted.running; Scripted.running; Scripted.finished] [] [] [] []
           Scripted.submitted Scripted.finished
           [Scripted.submitted; Scripted.running; Scripted.running]
           (GenAI.mkResponse (Some [GenAI.mkGeneratedVideo (Some Scripted.clip)]))
           (GenAI.mkGeneratedVideo (Some Scripted.clip)) [] Scripted.clip
           (lit "https://videos.example/clip.mp4?alt=media")
           (lit "https://videos.example/clip.mp4?alt=media")
           (lit "blob:clip") Scripted.found Scripted.clipBytes);
    try reflexivity.
  - exact stub_three_polls.
  - discriminate.
Qed.

Lemma poll_loop_leaves_for_a_cause_witness :
  loopCause (Stub.service Stub.allFine) Scripted.submitted
    [Scripted.running; Scripted.running; Scripted.finished] []
    (([], [] ++ Runs.pollCalls
                  [Scripted.submitted; Scripted.running; Scripted.running]),
     inr Scripted.finished).
Proof.
  apply (@poll_loop_leaves_for_a_cause _ (Stub.service Stub.allFine)
           Scripted.submitted
           [Scripted.running; Scripted.running; Scripted.finished] []).
  exact stub_loop_run.
Defined.

Lemma busy_service_never_settles_witness :
  ~ (Pipeline.runWith busyService
       (Pipeline.generateVideo Scripted.key Scripted.decode standParams) (0, [])
     ≈ Ret ((3, []), inl Stub.networkDown)).
Proof.
  apply (@busy_service_never_settles _ busyService Scripted.key Scripted.decode
           (fun _ => True) standParams 0 0 Scripted.submitted).
  - intros op polls _. exists (S polls), Scripted.running. repeat split.
  - reflexivity.
  - reflexivity.
  - exact I.
Defined.

Lemma resolved_call_went_through_completion_witness :
  exists s1 op handles final s2 resp first others u s3 res s4,
    Pipeline.generateVideos (Stub.service Stub.allFine) (Runs.submission standParams)
      [Scripted.running; Scripted.running; Scripted.finished] = (s1, inr op)
    /\ Runs.Completes (Stub.service Stub.allFine) op s1 handles final s2
    /\ GenAI.response final = Some resp
    /\ GenAI.generatedVideos resp = Some (first :: others)
    /\ GenAI.video first = Some Scripted.clip
    /\ GenAI.uri Scripted.clip = Some u /\ u <> []
    /\ Scripted.decode u = inr (lit "https://videos.example/clip.mp4?alt=media")
    /\ Pipeline.fetch (Stub.service Stub.allFine)
         (lit "https://videos.example/clip.mp4?alt=media" ++ lit "&key="
            ++ Scripted.key) s2 = (s3, inr res)
    /\ Pipeline.ok res = true
    /\ Pipeline.resBlob (Stub.service Stub.allFine) res s3
       = (s4, inr Scripted.clipBytes)
    /\ Pipeline.createObjectURL (Stub.service Stub.allFine) Scripted.clipBytes s4
       = ([], lit "blob:clip").
Proof.
  exact (@resolved_call_went_through_completion _ (Stub.service Stub.allFine)
           Scripted.key Scripted.decode standParams
           [Scripted.running; Scripted.running; Scripted.finished] _ _
           stub_call_run).
Defined.

Lemma blank_features_keep_the_lead_in_witness :
  featureLines (keyFeatures blankFeaturesParams) = []
  /\ constructPrompt blankFeaturesParams =
     beforeFeatures blankFeaturesParams
       ++ lit "Showcase the following key features:" ++ nl ++ nl ++ nl
       ++ afterFeatures.
Proof.
  apply (blank_features_keep_the_lead_in blankFeaturesParams).
  - discriminate.
  - repeat constructor.
Defined.

Lemma upload_then_remove_restores_witness :
  uploadThenRemove standSide 5 fiveImagesForm = Some fiveImagesForm.
Proof.
  apply (upload_then_remove_restores fiveImagesForm standSide).
  simpl. lia.
Defined.

Lemma submitted_request_is_well_formed_witness :
  trim (productName (Collector.handleSubmit sixImagesForm)) <> []
  /\ 1 <= List.length (productImages (Collector.handleSubmit sixImagesForm)) <= 6
  /\ List.length
       (Pipeline.referenceImages
          (Pipeline.config (Runs.submission (Collector.handleSubmit sixImagesForm))))
     = List.length (productImages (Collector.handleSubmit sixImagesForm)).
Proof.
  apply (submitted_request_is_well_formed None sixUploads sixImagesForm).
  - exact I.
  - repeat constructor.
  - reflexivity.
  - reflexivity.
Defined.

Lemma standPhoto_readable : readable standPhoto.
Proof.
  repeat split; [discriminate | repeat constructor |].
  cbv. intuition discriminate.
Qed.

Lemma standSide_readable : readable standSide.
Proof.
  repeat split; [discriminate | repeat constructor |].
  cbv. intuition discriminate.
Qed.

Lemma file_read_yields_base64_payload_witness :
  Upload.fileToImageFile (file standPhoto)
    (inr (Upload.dataURL (lit "image/png") (lit "iVBORw0KGgo=")))
  = inr (mkImageFile (file standPhoto) (lit "iVBORw0KGgo=")).
Proof.
  apply (file_read_yields_base64_payload (file standPhoto) (lit "image/png")
           (lit "iVBORw0KGgo=")).
  - cbv. intuition discriminate.
  - discriminate.
  - repeat constructor.
Defined.

Lemma file_without_payload_is_rejected_witness :
  Upload.fileToBase64 (file standPhoto) (inr (lit "data:"))
  = inl (mkError (lit "Failed to read file as base64."))
  /\ Upload.fileToBase64 (file standPhoto) (inr (lit "data:" ++ [Upload.comma]))
     = inl (mkError (lit "Failed to read file as base64."))
  /\ Upload.fileToBase64 (file standPhoto)
       (inr (lit "data:" ++ [Upload.comma; Upload.comma] ++ lit "AAAA"))
     = inl (mkError (lit "Failed to read file as base64."))
  /\ Upload.handleFileChange [file standPhoto] (fun _ => inr (lit "data:")) true
     = Upload.mkOutcome None
         (Some (mkError (lit "Failed to read file as base64."))) true.
Proof.
  apply (file_without_payload_is_rejected (file standPhoto) [] (lit "data:")
           (lit "AAAA") true).
  cbv. intuition discriminate.
Defined.

Lemma failed_read_leaves_form_unchanged_witness :
  Upload.form (Upload.mkSession fiveImagesForm []) = Upload.form oneReadInFlight
  /\ S (List.length (Upload.reading (Upload.mkSession fiveImagesForm [])))
     = List.length (Upload.reading oneReadInFlight).
Proof.
  apply (failed_read_leaves_form_unchanged oneReadInFlight
           (Upload.mkSession fiveImagesForm []) 0 Stub.bodyLost).
  reflexivity.
Defined.

(** Two files chosen on a form of five images: seven images. *)
Lemma overlapping_uploads_are_all_appended_witness :
  exists st',
    Upload.play (Upload.mkSession fiveImagesForm [])
      (chooseAll [standSide; standPhoto] ++ readAll [standSide; standPhoto])
    = Some (Upload.mkSession st' [])
    /\ Collector.productImages st'
       = Collector.productImages fiveImagesForm ++ [standSide; standPhoto]
    /\ List.length (Collector.productImages st')
       = List.length (Collector.productImages fiveImagesForm)
         + List.length [standSide; standPhoto].
Proof.
  apply (overlapping_uploads_are_all_appended fiveImagesForm [standSide; standPhoto]).
  - reflexivity.
  - constructor; [exact standSide_readable|].
    constructor; [exact standPhoto_readable | constructor].
Defined.
